(** * eslint-plugin-baseline: the baseline engine of [src/core/baseline.js]

    A shallow embedding of the [Baseline] class and the properties of its
    load / match / prune / save operations.

    Conventions of the model.
    - A JavaScript string is its UTF-8 byte sequence (a Rocq [string]).
    - A JavaScript number is an integer ([Z]); line numbers and counters are
      the only numbers the engine touches.
    - A plain object used as a dictionary (the baseline document, the
      per-rule grouping, the per-rule counters) is the [gmap] of its own
      properties, and a [Map] (the match index) is a [gmap]; the order in
      which [Object.entries] enumerates it is not part of the model.  Where
      [save], [getStats] and the merge of a split baseline read a plain
      object under a key they have not written, the properties every object
      inherits show through: [inheritedKey] names them.
    - A value read back by [JSON.parse] is a [json] tree; objects inside it
      keep their members as a list.
    - The file system is a table of regular files and a table of
      directories.  A file holds either text that [JSON.parse] rejects or
      the tree [JSON.parse] returns for it; [JSON.stringify] followed by
      [JSON.parse] is the identity on trees.  I/O failures (permissions,
      missing parent directory) are outside the model.
    - A method of the class takes the receiver and returns the updated
      receiver next to its result; a method that can throw returns a
      [result].
    - [path] is the POSIX flavour.  [localeCompare] belongs to the engine's
      locale data: the functions that sort take it as a parameter, and the
      sample computations run with the byte-wise comparison. *)

From Stdlib Require Import ZArith List Ascii String DecimalString DecimalZ.
From stdpp Require Import gmap strings list fin_maps sorting.

Local Open Scope Z_scope.

(** ** MD5 (RFC 1321), as [crypto.createHash('md5')] computes it *)

Module MD5.

Definition mask32 : Z := 0xffffffff.

Definition add32 (x y : Z) : Z := Z.land (x + y) mask32.

Definition not32 (x : Z) : Z := Z.lxor x mask32.

Definition rotl32 (x s : Z) : Z :=
  Z.land (Z.lor (Z.shiftl x s) (Z.shiftr x (32 - s))) mask32.

(** The per-round shift amounts. *)
Definition shifts : list Z :=
  [7; 12; 17; 22; 7; 12; 17; 22; 7; 12; 17; 22; 7; 12; 17; 22;
   5; 9; 14; 20; 5; 9; 14; 20; 5; 9; 14; 20; 5; 9; 14; 20;
   4; 11; 16; 23; 4; 11; 16; 23; 4; 11; 16; 23; 4; 11; 16; 23;
   6; 10; 15; 21; 6; 10; 15; 21; 6; 10; 15; 21; 6; 10; 15; 21].

(** [floor (2^32 * abs (sin (i + 1)))] for [i = 0 .. 63]. *)
Definition sines : list Z :=
  [0xd76aa478; 0xe8c7b756; 0x242070db; 0xc1bdceee;
   0xf57c0faf; 0x4787c62a; 0xa8304613; 0xfd469501;
   0x698098d8; 0x8b44f7af; 0xffff5bb1; 0x895cd7be;
   0x6b901122; 0xfd987193; 0xa679438e; 0x49b40821;
   0xf61e2562; 0xc040b340; 0x265e5a51; 0xe9b6c7aa;
   0xd62f105d; 0x02441453; 0xd8a1e681; 0xe7d3fbc8;
   0x21e1cde6; 0xc33707d6; 0xf4d50d87; 0x455a14ed;
   0xa9e3e905; 0xfcefa3f8; 0x676f02d9; 0x8d2a4c8a;
   0xfffa3942; 0x8771f681; 0x6d9d6122; 0xfde5380c;
   0xa4beea44; 0x4bdecfa9; 0xf6bb4b60; 0xbebfbc70;
   0x289b7ec6; 0xeaa127fa; 0xd4ef3085; 0x04881d05;
   0xd9d4d039; 0xe6db99e5; 0x1fa27cf8; 0xc4ac5665;
   0xf4292244; 0x432aff97; 0xab9423a7; 0xfc93a039;
   0x655b59c3; 0x8f0ccc92; 0xffeff47d; 0x85845dd1;
   0x6fa87e4f; 0xfe2ce6e0; 0xa3014314; 0x4e0811a1;
   0xf7537e82; 0xbd3af235; 0x2ad7d2bb; 0xeb86d391].

(** The four working registers. *)
Record regs := Regs { rA : Z; rB : Z; rC : Z; rD : Z }.

Definition init : regs :=
  Regs 0x67452301 0xefcdab89 0x98badcfe 0x10325476.

(** Message padding: a [0x80] byte, zeros up to 56 modulo 64, then the bit
    length as a 64-bit little-endian integer. *)
Definition le_bytes (n : nat) (x : Z) : list Z :=
  map (fun i => Z.land (Z.shiftr x (8 * Z.of_nat i)) 0xff) (seq 0 n).

Definition pad (msg : list Z) : list Z :=
  let len := Z.of_nat (length msg) in
  let zeros := Z.to_nat ((55 - len) mod 64) in
  msg ++ [0x80] ++ repeat 0 zeros ++ le_bytes 8 (Z.land (8 * len) 0xffffffffffffffff).

Definition word_of_bytes (bs : list Z) : Z :=
  foldr (fun b acc => Z.lor b (Z.shiftl acc 8)) 0 bs.

(** Cut a byte list into [n]-byte pieces; [fuel] bounds the number of pieces. *)
Fixpoint chunks (fuel n : nat) (bs : list Z) : list (list Z) :=
  match fuel with
  | O => []
  | S fuel' =>
      match bs with
      | [] => []
      | _ => take n bs :: chunks fuel' n (drop n bs)
      end
  end.

Definition words_of_block (block : list Z) : list Z :=
  map word_of_bytes (chunks 16 4 block).

(** One of the 64 steps on a block whose sixteen words are [m]. *)
Definition step (m : list Z) (r : regs) (i : nat) : regs :=
  let '(Regs a b c d) := r in
  let iz := Z.of_nat i in
  let '(f, g) :=
    if (i <? 16)%nat then (Z.lor (Z.land b c) (Z.land (not32 b) d), iz)
    else if (i <? 32)%nat then (Z.lor (Z.land d b) (Z.land (not32 d) c), (5 * iz + 1) mod 16)
    else if (i <? 48)%nat then (Z.lxor (Z.lxor b c) d, (3 * iz + 5) mod 16)
    else (Z.lxor c (Z.lor b (not32 d)), (7 * iz) mod 16) in
  let f' := add32 (add32 (add32 f a) (nth i sines 0)) (nth (Z.to_nat g) m 0) in
  Regs d (add32 b (rotl32 f' (nth i shifts 0))) b c.

Definition process_block (h : regs) (block : list Z) : regs :=
  let r := foldl (step (words_of_block block)) h (seq 0 64) in
  Regs (add32 (rA h) (rA r)) (add32 (rB h) (rB r))
       (add32 (rC h) (rC r)) (add32 (rD h) (rD r)).

Definition digest_bytes (msg : list Z) : list Z :=
  let p := pad msg in
  let h := foldl process_block init (chunks (length p) 64 p) in
  le_bytes 4 (rA h) ++ le_bytes 4 (rB h) ++ le_bytes 4 (rC h) ++ le_bytes 4 (rD h).

Definition hex_digit (x : Z) : ascii :=
  nth (Z.to_nat x) (list_ascii_of_string "0123456789abcdef") "0"%char.

Definition hex_of_bytes (bs : list Z) : string :=
  string_of_list_ascii
    (flat_map (fun b => [hex_digit (Z.shiftr b 4); hex_digit (Z.land b 0xf)]) bs).

Definition bytes_of_string (s : string) : list Z :=
  map (fun c => Z.of_N (N_of_ascii c)) (list_ascii_of_string s).

(** [createHash('md5').update(s).digest('hex')] *)
Definition hexdigest (s : string) : string :=
  hex_of_bytes (digest_bytes (bytes_of_string s)).

End MD5.

(** ** JavaScript values *)

(** What [JSON.parse] can return.  A number is an integer; the members of an
    object are its own properties, each key once. *)
#[warnings="-register-all"]
Inductive json :=
  | JNull
  | JBool (b : bool)
  | JNum (n : Z)
  | JStr (s : string)
  | JArr (items : list json)
  | JObj (members : list (string * json)).

(** A value that may be [undefined] ([None]). *)
Definition jsval := option json.

Inductive jstype := TUndefined | TObject | TBoolean | TNumber | TString.

#[global] Instance jstype_eq_dec : EqDecision jstype.
Proof. solve_decision. Defined.

Definition typeof (v : jsval) : jstype :=
  match v with
  | None => TUndefined
  | Some JNull => TObject
  | Some (JBool _) => TBoolean
  | Some (JNum _) => TNumber
  | Some (JStr _) => TString
  | Some (JArr _) => TObject
  | Some (JObj _) => TObject
  end.

(** [v === null] *)
Definition is_null (v : json) : bool :=
  match v with JNull => true | _ => false end.

Fixpoint assoc (k : string) (ms : list (string * json)) : jsval :=
  match ms with
  | [] => None
  | (k', v) :: ms' => if String.eqb k k' then Some v else assoc k ms'
  end.

(** [e.k] for a named (non-index) property [k].  Only objects carry such
    properties; the engine never reads a property of [null]. *)
Definition prop (e : json) (k : string) : jsval :=
  match e with
  | JObj ms => assoc k ms
  | _ => None
  end.

(** The decimal numeral of an integer, as a template literal prints it. *)
Definition string_of_Z (n : Z) : string :=
  NilZero.string_of_int (Z.to_int n).

Definition join_with (sep : string) (parts : list string) : string :=
  match parts with
  | [] => ""
  | p :: ps => foldl (fun acc q => acc +:+ sep +:+ q) p ps
  end.

(** [ToString]: how [`${v}`] renders a value. *)
Fixpoint toString (v : json) : string :=
  match v with
  | JNull => "null"
  | JBool b => if b then "true" else "false"
  | JNum n => string_of_Z n
  | JStr s => s
  | JArr items =>
      join_with ","
        ((fix elems (l : list json) : list string :=
            match l with
            | [] => []
            | x :: l' =>
                match x with JNull => "" | _ => toString x end :: elems l'
            end) items)
  | JObj _ => "[object Object]"
  end.

Definition template (v : jsval) : string :=
  match v with
  | None => "undefined"
  | Some j => toString j
  end.

(** A finding as the command-line front end records it. *)
Definition finding (ruleId : string) (line column : Z) (message : string) : json :=
  JObj [("ruleId", JStr ruleId); ("line", JNum line);
        ("column", JNum column); ("message", JStr message)].

(** ** [path] (POSIX flavour) *)

Fixpoint segments_go (cur : string) (s : string) : list string :=
  match s with
  | "" => [String.rev cur]
  | String c s' =>
      if Ascii.eqb c "/" then String.rev cur :: segments_go "" s'
      else segments_go (String c cur) s'
  end.

Definition segments (p : string) : list string := segments_go "" p.

(** One step of [normalizeString]; [stack] holds the kept segments, last
    first. *)
Definition push_segment (allowAboveRoot : bool) (stack : list string)
    (seg : string) : list string :=
  if bool_decide (seg = "" \/ seg = ".") then stack
  else if bool_decide (seg = "..") then
    match stack with
    | top :: rest =>
        if bool_decide (top = "..") then
          (if allowAboveRoot then ".." :: stack else stack)
        else rest
    | [] => if allowAboveRoot then [".."] else []
    end
  else seg :: stack.

Definition normalize_segments (allowAboveRoot : bool) (segs : list string)
    : list string :=
  rev (foldl (push_segment allowAboveRoot) [] segs).

Definition path_isAbsolute (p : string) : bool := String.prefix "/" p.

(** [s.endsWith(suffix)]: some tail of [s] is [suffix]. *)
Fixpoint ends_with (suffix s : string) : bool :=
  if String.eqb s suffix then true
  else match s with
       | "" => false
       | String _ s' => ends_with suffix s'
       end.

Definition path_normalize (p : string) : string :=
  if bool_decide (p = "") then "."
  else
    let isAbs := path_isAbsolute p in
    let body := join_with "/" (normalize_segments (negb isAbs) (segments p)) in
    let body := if bool_decide (body = "") && negb isAbs then "." else body in
    let body :=
      if negb (bool_decide (body = "")) && ends_with "/" p then body +:+ "/"
      else body in
    if isAbs then "/" +:+ body else body.

Definition path_join (a b : string) : string :=
  if bool_decide (a = "") then path_normalize b
  else if bool_decide (b = "") then path_normalize a
  else path_normalize (a +:+ "/" +:+ b).

(** The segments of [path.resolve(p)], which is absolute. *)
Definition resolve_segments (process_cwd p : string) : list string :=
  if path_isAbsolute p then normalize_segments false (segments p)
  else normalize_segments false (segments (process_cwd +:+ "/" +:+ p)).

Fixpoint strip_common (xs ys : list string) : list string * list string :=
  match xs, ys with
  | x :: xs', y :: ys' =>
      if bool_decide (x = y) then strip_common xs' ys' else (xs, ys)
  | _, _ => (xs, ys)
  end.

Definition path_relative (process_cwd from to : string) : string :=
  let '(up, down) :=
    strip_common (resolve_segments process_cwd from)
                 (resolve_segments process_cwd to) in
  join_with "/" (replicate (length up) ".." ++ down).

(** ** The host: working directory and file system *)

Inductive content :=
  | Garbled (text : string)
  | Tree (v : json).

(** [JSON.parse]; [None] stands for the [SyntaxError] it throws. *)
Definition JSON_parse (c : content) : option json :=
  match c with
  | Garbled _ => None
  | Tree v => Some v
  end.

Record host := Host {
  process_cwd : string;
  files : gmap string content;
  dirs : gmap string (gmap string content);
}.

(** Outcome of a method that may throw. *)
Inductive result (A : Type) :=
  | Ok (a : A)
  | Throw (error : string).
Arguments Ok {A} a.
Arguments Throw {A} error.

Definition bind {A B} (r : result A) (k : A -> result B) : result B :=
  match r with
  | Ok a => k a
  | Throw e => Throw e
  end.

(** ** Plain objects *)

(** The names under which every plain object finds a value it does not own:
    the properties of [Object.prototype]. *)
Definition inheritedKeys : list string :=
  ["constructor"; "toString"; "toLocaleString"; "valueOf"; "hasOwnProperty";
   "isPrototypeOf"; "propertyIsEnumerable"; "__proto__"; "__defineGetter__";
   "__defineSetter__"; "__lookupGetter__"; "__lookupSetter__"].

Definition inheritedKey (key : string) : bool :=
  bool_decide (key ∈ inheritedKeys).

(** ** The [Baseline] class *)

Definition DEFAULT_BASELINE_FILE : string := ".eslintbaseline.json".

Abbreviation document := (gmap string (list json)).
Abbreviation hashes := (gmap string Z).
Abbreviation matchIndex := (gmap string (gmap string Z)).

Record Baseline := mkBaseline {
  cwd : string;
  baselineFile : string;
  splitByRule : bool;
  data : option document;
  index : option matchIndex;
  loaded : bool;
}.

Record options := Options {
  opt_baselineFile : option string;
  opt_cwd : option string;
  opt_splitByRule : option bool;
}.

(** [s || d] on an optional string: [undefined] and [''] are falsy. *)
Definition or_string (s : option string) (d : string) : string :=
  match s with
  | Some s' => if bool_decide (s' = "") then d else s'
  | None => d
  end.

Definition or_false (b : option bool) : bool := default false b.

Definition constructor (h : host) (o : options) : Baseline :=
  {| cwd := or_string (opt_cwd o) (process_cwd h);
     baselineFile := or_string (opt_baselineFile o) DEFAULT_BASELINE_FILE;
     splitByRule := or_false (opt_splitByRule o);
     data := None;
     index := None;
     loaded := false |}.

Definition getBaselinePath (b : Baseline) : string :=
  if path_isAbsolute (baselineFile b) then baselineFile b
  else path_join (cwd b) (baselineFile b).

(** [s.replace(/\.json$/, '')] *)
Definition strip_json_suffix (s : string) : string :=
  if ends_with ".json" s then String.substring 0 (String.length s - 5) s else s.

Definition getSplitBaselineDir (b : Baseline) : string :=
  strip_json_suffix (getBaselinePath b).

(** The predicate of the [errors.filter] call in [_validateBaselineData]. *)
Definition isValidError (error : json) : bool :=
  if negb (bool_decide (typeof (Some error) = TObject))
     || is_null error then false
  else if negb (bool_decide (typeof (prop error "ruleId") = TString))
          || negb (bool_decide (typeof (prop error "line") = TNumber)) then false
  else true.

(** [_validateBaselineData]: the diagnostics written to the console are not
    part of the result. *)
Definition _validateBaselineData (data : json) : document :=
  match data with
  | JObj members =>
      foldl
        (fun (validated : document) '(filePath, errors) =>
           match errors with
           | JArr items =>
               let validErrors := List.filter isValidError items in
               if (0 <? Z.of_nat (length validErrors))
               then <[filePath := validErrors]> validated
               else validated
           | _ => validated
           end)
        ∅ members
  | _ => ∅
  end.

(** [_loadSingleBaseline].  A missing file, a path that is not a regular
    file and a file [JSON.parse] rejects all give the empty document. *)
Definition _loadSingleBaseline (h : host) (b : Baseline) : document :=
  match files h !! getBaselinePath b with
  | None => ∅
  | Some content =>
      match JSON_parse content with
      | None => ∅
      | Some data => _validateBaselineData data
      end
  end.

(** [fs.readdirSync] *)
Definition readdirSync (d : gmap string content) : list string :=
  (map_to_list d).*1.

Definition isRuleFile (f : string) : bool :=
  ends_with ".json" f && negb (bool_decide (f = "_loader.json")).

(** [merged[sourceFile].push(...errors)], creating the array when absent.
    [merged] is a plain object, read under [sourceFile] before it is
    written: under an inherited name the value found is not an array and
    the call of its [push] throws.  The flag records that it has: the
    handler around the loops of [_loadSplitBaseline] then returns what was
    merged before. *)
Definition push_all (sourceFile : string) (errors : list json)
    (acc : document * bool) : document * bool :=
  let '(merged, thrown) := acc in
  if thrown then acc
  else if inheritedKey sourceFile then (merged, true)
  else (<[sourceFile := default [] (merged !! sourceFile) ++ errors]> merged, false).

(** [_loadSplitBaseline] *)
Definition _loadSplitBaseline (h : host) (b : Baseline) : document :=
  match dirs h !! getSplitBaselineDir b with
  | None => ∅
  | Some d =>
      (foldl
         (fun (acc : document * bool) file =>
            if acc.2 then acc
            else
              match d !! file ≫= JSON_parse with
              | None => acc
              | Some content => map_fold push_all acc (_validateBaselineData content)
              end)
         (∅, false) (List.filter isRuleFile (readdirSync d))).1
  end.

(** [_generateHash] *)
Definition preimage (ruleId line message : jsval) : string :=
  template ruleId +:+ ":" +:+ template line +:+ ":" +:+ template message.

Definition _generateHash (ruleId line message : jsval) : string :=
  String.substring 0 12 (MD5.hexdigest (preimage ruleId line message)).

Definition hashOf (error : json) : string :=
  _generateHash (prop error "ruleId") (prop error "line") (prop error "message").

Arguments _generateHash : simpl never.
Arguments hashOf : simpl never.

(** [n || 0] on an optional counter. *)
Definition or_zero (n : option Z) : Z := default 0 n.

(** The inner loop of [_buildIndex]. *)
Definition countHashes (errors : list json) : hashes :=
  foldl (fun (hs : hashes) error =>
           let hash := hashOf error in
           <[hash := or_zero (hs !! hash) + 1]> hs)
        ∅ errors.

Definition _buildIndex (d : document) : matchIndex := countHashes <$> d.

(** [load] *)
Definition load (h : host) (b : Baseline) : Baseline * option document :=
  if loaded b then (b, data b)
  else
    let d := if splitByRule b then _loadSplitBaseline h b
             else _loadSingleBaseline h b in
    (mkBaseline (cwd b) (baselineFile b) (splitByRule b)
                (Some d) (Some (_buildIndex d)) true,
     Some d).

Definition with_index (b : Baseline) (i : matchIndex) : Baseline :=
  mkBaseline (cwd b) (baselineFile b) (splitByRule b) (data b) (Some i) (loaded b).

(** [isInBaseline] *)
Definition isInBaseline (h : host) (b : Baseline) (filePath : string)
    (ruleId line message : jsval) : result (Baseline * bool) :=
  let b := if loaded b then b else (load h b).1 in
  let relativePath := path_relative (process_cwd h) (cwd b) filePath in
  match index b with
  | None => Throw "TypeError"
  | Some idx =>
      match idx !! relativePath with
      | None => Ok (b, false)
      | Some fileHashes =>
          let hash := _generateHash ruleId line message in
          match fileHashes !! hash with
          | Some count =>
              if negb (count =? 0) && (0 <? count) then
                if count =? 1
                then Ok (with_index b (<[relativePath := delete hash fileHashes]> idx), true)
                else Ok (with_index b (<[relativePath := <[hash := count - 1]> fileHashes]> idx), true)
              else Ok (b, false)
          | None => Ok (b, false)
          end
      end
  end.

(** [reset] *)
Definition reset (b : Baseline) : Baseline :=
  mkBaseline (cwd b) (baselineFile b) (splitByRule b) None None false.

(** [error.line] and [error.ruleId] of a finding.  The entries handed to
    [save] are findings: their line is a number and their ruleId a string. *)
Definition lineOf (error : json) : Z :=
  match prop error "line" with Some (JNum n) => n | _ => 0 end.

Definition ruleIdOf (error : json) : string :=
  match prop error "ruleId" with Some (JStr s) => s | _ => "" end.

(** The tree [JSON.stringify] writes for a document. *)
Definition json_of_document (d : document) : json :=
  JObj ((fun kv => (kv.1, JArr kv.2)) <$> map_to_list d).

Definition writeFile (h : host) (path : string) (c : content) : host :=
  Host (process_cwd h) (<[path := c]> (files h)) (dirs h).

Definition writeDir (h : host) (path : string) (d : gmap string content) : host :=
  Host (process_cwd h) (files h) (<[path := d]> (dirs h)).

(** [s.replace(/\//g, '-')] *)
Fixpoint replace_slashes (s : string) : string :=
  match s with
  | "" => ""
  | String c s' =>
      String (if Ascii.eqb c "/" then "-"%char else c) (replace_slashes s')
  end.

(** The body of the grouping loop of [_saveSplitBaseline], for one entry.
    [byRule] and the objects it holds are plain objects, and the loop reads
    them under a key before it writes them:
    - a [ruleId] that is not a string has no [replace] method;
    - under an inherited name [byRule[ruleId][filePath]] is not an array,
      whatever [byRule[ruleId]] is, and calling its [push] throws;
    - under an inherited name [byRule[ruleId]] is the inherited value, which
      is truthy: [byRule] gets no own property, the entry is pushed on an
      array hung off the inherited value, and no rule document will be
      written for it. *)
Definition groupError (filePath : string) (byRule : gmap string document)
    (error : json) : result (gmap string document) :=
  match prop error "ruleId" with
  | Some (JStr id) =>
      let ruleId := replace_slashes id in
      if inheritedKey filePath then Throw "TypeError"
      else if inheritedKey ruleId then Ok byRule
      else
        let ruleData := default ∅ (byRule !! ruleId) in
        Ok (<[ruleId := <[filePath := default [] (ruleData !! filePath) ++ [error]]>
                          ruleData]> byRule)
  | _ => Throw "TypeError"
  end.

Definition groupByRule (d : document) : result (gmap string document) :=
  map_fold (fun filePath errors (acc : result (gmap string document)) =>
              foldl (fun acc error =>
                       bind acc (fun byRule => groupError filePath byRule error))
                    acc errors)
           (Ok ∅) d.

Definition loaderDescription : string := "ESLint baseline split by rule identifier".

Definition loader_json (ruleFiles : list string) : json :=
  JObj [("description", JStr loaderDescription);
        ("files", JArr (JStr <$> merge_sort String.le ruleFiles))].

Record saveOptions := SaveOptions { allowEmpty : option bool }.

Section Collation.

(** [a.localeCompare(b)]: the collation of the host's locale, which comes
    with the JavaScript engine and not with the repository.  Every function
    that sorts takes it as a parameter. *)
Variable localeCompare : string -> string -> Z.

(** The comparator of [_sortBaseline]. *)
Definition compareErrors (a b : json) : Z :=
  if negb (lineOf a =? lineOf b) then lineOf a - lineOf b
  else localeCompare (ruleIdOf a) (ruleIdOf b).


(** [errors.sort(comparator)].  [Array.prototype.sort] is stable: an entry
    goes before the first entry it does not compare greater than, so entries
    that compare equal keep the order they came in. *)
Fixpoint insertSorted (error : json) (sorted : list json) : list json :=
  match sorted with
  | [] => [error]
  | e :: rest =>
      if compareErrors error e <=? 0 then error :: sorted
      else e :: insertSorted error rest
  end.

Definition sortErrors (errors : list json) : list json :=
  foldr insertSorted [] errors.

(** [_sortBaseline].  The source sorts each array in place and fills a fresh
    plain object in key order; the model returns the sorted document and
    leaves the caller's value alone.  Assigning to [sorted['__proto__']]
    sets the prototype of [sorted] and creates no property. *)
Definition _sortBaseline (d : document) : document :=
  let sortedKeys := merge_sort String.le (map_to_list d).*1 in
  foldl (fun (sorted : document) key =>
           if bool_decide (key = "__proto__") then sorted
           else <[key := sortErrors (default [] (d !! key))]> sorted)
        ∅ sortedKeys.

(** [_saveSingleBaseline] *)
Definition _saveSingleBaseline (h : host) (b : Baseline) (d : document) : host :=
  writeFile h (getBaselinePath b) (Tree (json_of_document (_sortBaseline d))).

(** [_saveSplitBaseline].  The grouping comes first and may throw; the
    files are unlinked and written after it.  A [result] that throws
    carries no host: the directory made before the grouping is then not
    accounted for. *)
Definition _saveSplitBaseline (h : host) (b : Baseline) (d : document)
    : result host :=
  let baselineDir := getSplitBaselineDir b in
  let existing := default ∅ (dirs h !! baselineDir) in
  bind (groupByRule d) (fun byRule =>
    let cleared := filter (fun kv => ends_with ".json" kv.1 = false) existing in
    let '(written, ruleFiles) :=
      foldl (fun '(dir, ruleFiles) '(ruleId, ruleData) =>
               let fileName := ruleId +:+ ".json" in
               (<[fileName := Tree (json_of_document (_sortBaseline ruleData))]> dir,
                ruleFiles ++ [fileName]))
            (cleared, []) (map_to_list byRule) in
    Ok (writeDir h baselineDir
          (<["_loader.json" := Tree (loader_json ruleFiles)]> written))).

(** [save] *)
Definition save (h : host) (b : Baseline) (d : document) (o : saveOptions)
    : result (host * bool) :=
  let allowEmpty := or_false (allowEmpty o) in
  let isEmpty := Z.of_nat (length (map_to_list d).*1) =? 0 in
  if isEmpty && negb allowEmpty then Ok (h, false)
  else
    bind (if splitByRule b then _saveSplitBaseline h b d
          else Ok (_saveSingleBaseline h b d))
         (fun h' => Ok (h', true)).

End Collation.

(** The comparison of two strings byte by byte: one collation, the one the
    sample hosts below sort with.  No sample document has two different
    rule identifiers on one line of one file, so that the samples come out
    the same under every collation. *)
Definition ordinalCompare (a b : string) : Z :=
  match String.compare a b with
  | Lt => -1
  | Eq => 0
  | Gt => 1
  end.

(** What a property of [ruleStats] holds: a count, or the text that
    [(ruleStats[key] || 0) + 1] makes of a value that is not a number. *)
Inductive statValue :=
  | Count (n : Z)
  | Text (s : string).

Record stats := Stats {
  totalErrors : Z;
  fileCount : Z;
  ruleStats : gmap string statValue;
}.

(** [String(f)] for the function [Object.prototype] holds under [key], as
    Node prints a native function. *)
Definition nativeSource (key : string) : string :=
  "function " +:+ (if bool_decide (key = "constructor") then "Object" else key)
  +:+ "() { [native code] }".

(** [ruleStats[key] = (ruleStats[key] || 0) + 1].  [ruleStats] is a plain
    object: the first read under an inherited name finds the inherited
    function, [+ 1] appends to its text, and the assignment stores that
    text as an own property; under ['__proto__'] the read finds
    [Object.prototype] and the assignment of the resulting text is ignored. *)
Definition countError (acc : Z * gmap string statValue) (error : json)
    : Z * gmap string statValue :=
  let key := template (prop error "ruleId") in
  (acc.1 + 1,
   if bool_decide (key = "__proto__") then acc.2
   else
     match acc.2 !! key with
     | Some (Count n) => <[key := Count ((if n =? 0 then 0 else n) + 1)]> acc.2
     | Some (Text s) =>
         <[key := if bool_decide (s = "") then Count 1 else Text (s +:+ "1")]> acc.2
     | None =>
         <[key := if inheritedKey key then Text (nativeSource key +:+ "1")
                  else Count 1]> acc.2
     end).

(** The scan of [getStats] over a document. *)
Definition scanStats (d : document) : stats :=
  let acc := map_fold (fun _ errors acc => foldl countError acc errors) (0, ∅) d in
  Stats acc.1 (Z.of_nat (length (map_to_list d).*1)) acc.2.

(** [getStats] *)
Definition getStats (h : host) (b : Baseline) : result (Baseline * stats) :=
  let b := if loaded b then b else (load h b).1 in
  match data b with
  | None => Throw "TypeError"
  | Some d => Ok (b, scanStats d)
  end.

Record unmatchedEntry := Unmatched {
  u_file : string;
  u_error : json;
  unmatchedCount : Z;
}.

(** The body of the inner loop of [getUnmatched] for one index entry. *)
Definition representative (d : option document) (file hash : string) (count : Z)
    : result (list unmatchedEntry) :=
  if 0 <? count then
    match d with
    | None => Throw "TypeError"
    | Some d =>
        let fileErrors := default [] (d !! file) in
        match List.find (fun error => String.eqb (hashOf error) hash) fileErrors with
        | Some error => Ok [Unmatched file error count]
        | None => Ok []
        end
    end
  else Ok [].

(** [getUnmatched]: no implicit load. *)
Definition getUnmatched (b : Baseline) : result (list unmatchedEntry) :=
  match index b with
  | None => Throw "TypeError"
  | Some idx =>
      foldl (fun acc '(file, hs) =>
               foldl (fun acc '(hash, count) =>
                        bind acc (fun unmatched =>
                        bind (representative (data b) file hash count) (fun r =>
                        Ok (unmatched ++ r))))
                     acc (map_to_list hs))
            (Ok []) (map_to_list idx)
  end.

Record pruneResult := PruneResult {
  pruned_data : document;
  removedCount : Z;
  keptCount : Z;
}.

(** The set of fingerprints of one file's current findings. *)
Definition hashSet (errors : list json) : gset string :=
  foldl (fun (hs : gset string) error => {[hashOf error]} ∪ hs) ∅ errors.

Record pruneAcc := PruneAcc {
  acc_pruned : document;
  acc_removed : Z;
  acc_kept : Z;
}.

(** The body of the second loop of [prune] for one baseline file. *)
Definition pruneFile (currentIndex : gmap string (gset string))
    (file : string) (errors : list json) (acc : pruneAcc) : pruneAcc :=
  match currentIndex !! file with
  | None =>
      PruneAcc (acc_pruned acc) (acc_removed acc + Z.of_nat (length errors)) (acc_kept acc)
  | Some currentHashes =>
      let '(keptErrors, removed, kept) :=
        foldl (fun '(keptErrors, removed, kept) error =>
                 if bool_decide (hashOf error ∈ currentHashes)
                 then (keptErrors ++ [error], removed, kept + 1)
                 else (keptErrors, removed + 1, kept))
              ([], acc_removed acc, acc_kept acc) errors in
      PruneAcc (if 0 <? Z.of_nat (length keptErrors)
                then <[file := keptErrors]> (acc_pruned acc)
                else acc_pruned acc)
               removed kept
  end.

(** [prune] *)
Definition prune (h : host) (b : Baseline) (currentErrors : document)
    : result (Baseline * pruneResult) :=
  let b := if loaded b then b else (load h b).1 in
  match data b with
  | None => Throw "TypeError"
  | Some d =>
      let currentIndex := hashSet <$> currentErrors in
      let acc := map_fold (pruneFile currentIndex) (PruneAcc ∅ 0 0) d in
      Ok (b, PruneResult (acc_pruned acc) (acc_removed acc) (acc_kept acc))
  end.

(** ** A lookup pass *)

Record query := Query {
  q_file : string;
  q_ruleId : jsval;
  q_line : jsval;
  q_message : jsval;
}.

(** A caller's loop over live findings: one [isInBaseline] call per query,
    each on the engine the previous call left behind. *)
Fixpoint lookups (h : host) (b : Baseline) (qs : list query)
    : result (Baseline * list bool) :=
  match qs with
  | [] => Ok (b, [])
  | q :: qs' =>
      bind (isInBaseline h b (q_file q) (q_ruleId q) (q_line q) (q_message q))
           (fun br => bind (lookups h br.1 qs')
                           (fun brs => Ok (brs.1, br.2 :: brs.2)))
  end.

Definition answers {A} (r : result (Baseline * A)) : option A :=
  match r with
  | Ok (_, a) => Some a
  | Throw _ => None
  end.

(** The count the index still holds for a fingerprint of a file. *)
Definition remaining (idx : matchIndex) (file hash : string) : option Z :=
  idx !! file ≫= (fun hs : hashes => hs !! hash).

(** Two documents agree up to the order of each file's entries. *)
Definition doc_equiv (d1 d2 : document) : Prop :=
  forall f, option_Forall2 Permutation (d1 !! f) (d2 !! f).

(** The number of entries of a document. *)
Definition entryCount (d : document) : Z :=
  map_fold (fun _ errors n => n + Z.of_nat (length errors)) 0 d.

(** ** Sample engines and hosts *)

Module Sample.

Definition host0 : host := Host "/work" ∅ ∅.

Definition single : Baseline :=
  constructor host0 (Options None (Some "/repo") None).

Definition split : Baseline :=
  constructor host0 (Options None (Some "/repo") (Some true)).

Definition str (s : string) : jsval := Some (JStr s).
Definition num (n : Z) : jsval := Some (JNum n).

(** The same finding recorded twice, at two columns. *)
Definition twice : document :=
  {[ "src/f.js" := [finding "r" 5 1 "m"; finding "r" 5 9 "m"] ]}.

Definition three : document :=
  {[ "src/f.js" := [finding "no-var" 3 1 "A"; finding "eqeqeq" 7 1 "B";
                    finding "semi" 9 1 "C"] ]}.

Definition onDisk (b : Baseline) (d : document) : host :=
  match save ordinalCompare host0 b d (SaveOptions None) with
  | Ok (h, _) => h
  | Throw _ => host0
  end.

Definition loadedFrom (b : Baseline) (d : document) : Baseline :=
  (load (onDisk b d) b).1.

End Sample.

(** ** Notions the properties are stated with *)

(** What [_validateBaselineData] stores for one member of the parsed object. *)
Definition validEntries (errors : json) : option (list json) :=
  match errors with
  | JArr items =>
      match List.filter isValidError items with
      | [] => None
      | validErrors => Some validErrors
      end
  | _ => None
  end.

Definition validateMember (validated : document) (member : string * json) : document :=
  match validEntries member.2 with
  | Some validErrors => <[member.1 := validErrors]> validated
  | None => validated
  end.

(** The entries of [errors] whose fingerprint occurs among [current]. *)
Definition stillPresent (current errors : list json) : list json :=
  List.filter (fun error => bool_decide (hashOf error ∈ hashOf <$> current)) errors.

(** What [prune] leaves of one baseline file, given the current findings of
    that file if any. *)
Definition prunedEntries (errors : option (list json)) (current : option (list json))
    : option (list json) :=
  match errors, current with
  | Some es, Some cs =>
      match stillPresent cs es with
      | [] => None
      | kept => Some kept
      end
  | _, _ => None
  end.

(** Every entry of the document is a finding that passes validation. *)
Definition findings_only (d : document) : Prop :=
  forall f es, d !! f = Some es -> Forall (fun e => isValidError e = true) es.

(** No file of the document has an empty array. *)
Definition no_empty_file (d : document) : Prop :=
  forall f, d !! f <> Some [].

(** The file-name stem [_saveSplitBaseline] derives from an entry. *)
Definition sanitized (error : json) : string := replace_slashes (ruleIdOf error).

(** The entries of [errors] that go to the rule document [rule]. *)
Definition ruleEntries (rule : string) (errors : list json) : list json :=
  List.filter (fun e => bool_decide (sanitized e = rule)) errors.

(** The array a grouping holds for a rule and a source file. *)
Definition cell (byRule : gmap string document) (rule file : string)
    : option (list json) :=
  byRule !! rule ≫= (fun rd : document => rd !! file).

(** [o] extended by [l], created only when [l] has an entry. *)
Definition extend (o : option (list json)) (l : list json) : option (list json) :=
  match l with
  | [] => o
  | _ => Some (default [] o ++ l)
  end.

(** No source-file path and no file-name stem of the document is a name
    that plain objects inherit. *)
Definition plain_keys (d : document) : Prop :=
  forall f es e, d !! f = Some es -> e ∈ es ->
    inheritedKey f = false /\ inheritedKey (sanitized e) = false.

(** No entry of the document is filed under the manifest's own name. *)
Definition avoids_manifest_name (d : document) : Prop :=
  forall f es e, d !! f = Some es -> e ∈ es -> sanitized e <> "_loader".

(** The grouping of a document whose keys are all plain: every entry is
    filed under its stem and its source file. *)
Definition fileUnder (filePath : string) (byRule : gmap string document)
    (error : json) : gmap string document :=
  let ruleData := default ∅ (byRule !! sanitized error) in
  <[sanitized error :=
      <[filePath := default [] (ruleData !! filePath) ++ [error]]> ruleData]> byRule.

Definition grouping (d : document) : gmap string document :=
  map_fold (fun filePath errors byRule => foldl (fileUnder filePath) byRule errors)
           ∅ d.

Definition ruleFileName (rule : string) : string := rule +:+ ".json".

(** What [_loadSplitBaseline] decodes from one file of the directory. *)
Definition docOfFile (dir : gmap string content) (file : string) : document :=
  match dir !! file ≫= JSON_parse with
  | Some content => _validateBaselineData content
  | None => ∅
  end.

(** The merge of one source file's entries when nothing throws. *)
Definition mergeInto (sourceFile : string) (errors : list json)
    (merged : document) : document :=
  <[sourceFile := default [] (merged !! sourceFile) ++ errors]> merged.

Definition appendOpt (o e : option (list json)) : option (list json) :=
  match e with
  | Some es => Some (default [] o ++ es)
  | None => o
  end.



Section WrittenForm.

Variable localeCompare : string -> string -> Z.

Definition ruleFileContent (ruleData : document) : content :=
  Tree (json_of_document (_sortBaseline localeCompare ruleData)).

Definition writeRule (dir : gmap string content) (kv : string * document)
    : gmap string content :=
  <[ruleFileName kv.1 := ruleFileContent kv.2]> dir.

(** The directory [_saveSplitBaseline] leaves behind for a document whose
    keys are all plain, given the directory it found. *)
Definition splitDirectory (existing : gmap string content) (d : document)
    : gmap string content :=
  let rules := map_to_list (grouping d) in
  <["_loader.json" := Tree (loader_json ((fun kv => ruleFileName kv.1) <$> rules))]>
    (foldl writeRule (filter (fun kv => ends_with ".json" kv.1 = false) existing) rules).

End WrittenForm.

(** How many entries of a list carry a fingerprint, and how many entries a
    document records for a file under a fingerprint. *)
Definition hashCount (hash : string) (errors : list json) : Z :=
  Z.of_nat (length (List.filter (fun e => String.eqb (hashOf e) hash) errors)).

Definition multiplicity (d : document) (file hash : string) : Z :=
  hashCount hash (default [] (d !! file)).

(** The file and fingerprint a query is looked up under. *)
Definition queryKey (h : host) (b : Baseline) (q : query) : string * string :=
  (path_relative (process_cwd h) (cwd b) (q_file q),
   _generateHash (q_ruleId q) (q_line q) (q_message q)).

Definition occurrences (k : string * string) (ks : list (string * string)) : Z :=
  Z.of_nat (length (List.filter (fun k' => bool_decide (k' = k)) ks)).

(** The count the index still holds under a key, zero when it holds none. *)
Definition remainingCount (idx : matchIndex) (k : string * string) : Z :=
  default 0 (remaining idx k.1 k.2).

(** Every count the index holds is at least one. *)
Definition positive_counts (idx : matchIndex) : Prop :=
  forall f h c, remaining idx f h = Some c -> 1 <= c.

(** The answers of a pass over keys [ks], after the keys [seen], on an index
    that started with [base k] entries under each key [k]. *)
Fixpoint expectedAnswers (base : string * string -> Z)
    (seen ks : list (string * string)) : list bool :=
  match ks with
  | [] => []
  | k :: ks' =>
      bool_decide (occurrences k seen < base k)
      :: expectedAnswers base (seen ++ [k]) ks'
  end.

(** * Properties *)

(** ** The digest *)

(** The RFC 1321 test suite, and messages around the padding boundary. *)
Example md5_test_suite :
  MD5.hexdigest "" = "d41d8cd98f00b204e9800998ecf8427e"
  /\ MD5.hexdigest "a" = "0cc175b9c0f1b6a831c399e269772661"
  /\ MD5.hexdigest "abc" = "900150983cd24fb0d6963f7d28e17f72"
  /\ MD5.hexdigest "message digest" = "f96b697d7cb7938d525a2f31aaf161d0"
  /\ MD5.hexdigest "abcdefghijklmnopqrstuvwxyz" = "c3fcd3d76192e4007dfb496cca67e13b"
  /\ MD5.hexdigest
       "12345678901234567890123456789012345678901234567890123456789012345678901234567890"
     = "57edf4a22be3c955ac49da2e2107b67a"
  /\ MD5.hexdigest "xxxxxxxxxxxxxxxxxxxxxxxxxxxxxxxxxxxxxxxxxxxxxxxxxxxxxxx"
     = "04364420e25c512fd958a70738aa8f72"
  /\ MD5.hexdigest "xxxxxxxxxxxxxxxxxxxxxxxxxxxxxxxxxxxxxxxxxxxxxxxxxxxxxxxx"
     = "668a72d5ba17f08e62dabcafad6db14b".
Proof. vm_compute. repeat split; reflexivity. Qed.

(** ** Strings and numerals *)

Lemma list_ascii_of_append (s t : string) :
  list_ascii_of_string (s +:+ t) = list_ascii_of_string s ++ list_ascii_of_string t.
Proof. induction s as [|c s IH]; simpl; [done|]. by rewrite IH. Qed.

Lemma list_ascii_inj (s t : string) :
  list_ascii_of_string s = list_ascii_of_string t -> s = t.
Proof.
  intros H. rewrite <- (string_of_list_ascii_of_string s),
    <- (string_of_list_ascii_of_string t). by rewrite H.
Qed.

Lemma append_cancel_r (s1 s2 t : string) : s1 +:+ t = s2 +:+ t -> s1 = s2.
Proof.
  intros H. apply list_ascii_inj.
  apply (f_equal list_ascii_of_string) in H.
  rewrite !list_ascii_of_append in H. by apply app_inv_tail in H.
Qed.

Lemma append_cancel_l (s t1 t2 : string) : s +:+ t1 = s +:+ t2 -> t1 = t2.
Proof. apply String.app_inj. Qed.

Lemma to_int_proper (n : Z) : Z.to_int n <> Decimal.Pos Decimal.Nil /\ Z.to_int n <> Decimal.Neg Decimal.Nil.
Proof.
  destruct n as [|p|p]; simpl; split; try discriminate;
    intros [= H]; by apply DecimalPos.Unsigned.to_uint_nonnil in H.
Qed.

Lemma string_of_Z_inj (a b : Z) : string_of_Z a = string_of_Z b -> a = b.
Proof.
  unfold string_of_Z. intros H.
  apply (f_equal NilZero.int_of_string) in H.
  destruct (to_int_proper a) as [Ha1 Ha2], (to_int_proper b) as [Hb1 Hb2].
  rewrite !NilZero.isi in H by done.
  injection H as H. by apply DecimalZ.to_int_inj.
Qed.

(** ** The fingerprint *)

Lemma preimage_strings (r m : string) (l : Z) :
  preimage (Some (JStr r)) (Some (JNum l)) (Some (JStr m))
  = r +:+ ":" +:+ string_of_Z l +:+ ":" +:+ m.
Proof. reflexivity. Qed.

Lemma hashOf_finding (r m : string) (l c : Z) :
  hashOf (finding r l c m)
  = _generateHash (Some (JStr r)) (Some (JNum l)) (Some (JStr m)).
Proof. reflexivity. Qed.

(** C7, the claim as written fails: two messages for the same rule and
    line whose fingerprints coincide. *)
Lemma fingerprint_collision :
  "8bac4e7b448d" <> "5695c45b45f6" /\
  _generateHash (Some (JStr "no-console")) (Some (JNum 1)) (Some (JStr "8bac4e7b448d"))
  = _generateHash (Some (JStr "no-console")) (Some (JNum 1)) (Some (JStr "5695c45b45f6")).
Proof. split; [discriminate|]. vm_compute. reflexivity. Qed.

(** C7 (amended): the fingerprint is a function of the digested string
    alone, the twelve leading hex digits of its MD5; the column of a
    finding does not enter it; and changing exactly one of rule identifier,
    line or message changes the digested string. *)
Theorem fingerprint_of_preimage (r r' m m' : string) (l l' c c' : Z) :
  _generateHash (Some (JStr r)) (Some (JNum l)) (Some (JStr m))
    = String.substring 0 12
        (MD5.hexdigest (r +:+ ":" +:+ string_of_Z l +:+ ":" +:+ m))
  /\ hashOf (finding r l c m) = hashOf (finding r l c' m)
  /\ (preimage (Some (JStr r)) (Some (JNum l)) (Some (JStr m))
      = preimage (Some (JStr r')) (Some (JNum l)) (Some (JStr m)) <-> r = r')
  /\ (preimage (Some (JStr r)) (Some (JNum l)) (Some (JStr m))
      = preimage (Some (JStr r)) (Some (JNum l')) (Some (JStr m)) <-> l = l')
  /\ (preimage (Some (JStr r)) (Some (JNum l)) (Some (JStr m))
      = preimage (Some (JStr r)) (Some (JNum l)) (Some (JStr m')) <-> m = m').
Proof.
  split; [reflexivity|]. split; [reflexivity|].
  rewrite !preimage_strings. repeat split; try (intros ->; reflexivity).
  - intros H. by apply append_cancel_r in H.
  - intros H. do 2 apply append_cancel_l in H.
    apply append_cancel_r in H. by apply string_of_Z_inj.
  - intros H. by do 4 apply append_cancel_l in H.
Qed.

(** C10: two different findings with one digested string, hence one
    fingerprint; the baseline entry of the first is consumed by a lookup of
    the second, after which the first is no longer matched. *)
Theorem preimage_ambiguity :
  let recorded := {[ "src/f.js" := [finding "a" 5 1 "1:m"] ]} in
  let b := Sample.loadedFrom Sample.single recorded in
  let h := Sample.onDisk Sample.single recorded in
  ("a", 5, "1:m") <> ("a:5", 1, "m")
  /\ preimage (Sample.str "a") (Sample.num 5) (Sample.str "1:m")
     = preimage (Sample.str "a:5") (Sample.num 1) (Sample.str "m")
  /\ _generateHash (Sample.str "a") (Sample.num 5) (Sample.str "1:m")
     = _generateHash (Sample.str "a:5") (Sample.num 1) (Sample.str "m")
  /\ answers (lookups h b
       [Query "/repo/src/f.js" (Sample.str "a:5") (Sample.num 1) (Sample.str "m");
        Query "/repo/src/f.js" (Sample.str "a") (Sample.num 5) (Sample.str "1:m")])
     = Some [true; false].
Proof.
  cbv zeta. split; [discriminate|]. split; [reflexivity|].
  split; [reflexivity|]. vm_compute. reflexivity.
Qed.

(** ** Lifecycle *)

Lemma with_index_same (b : Baseline) (idx : matchIndex) :
  index b = Some idx -> with_index b idx = b.
Proof. destruct b; simpl; intros ->; reflexivity. Qed.

Lemma load_loaded (h : host) (b : Baseline) : loaded (load h b).1 = true.
Proof. unfold load. destruct (loaded b) eqn:E; simpl; done. Qed.

Lemma load_data_index (h : host) (b : Baseline) :
  loaded b = false ->
  exists d, data (load h b).1 = Some d /\ index (load h b).1 = Some (_buildIndex d).
Proof. intros E. unfold load. rewrite E. simpl. eauto. Qed.

(** C5: [getUnmatched] has no implicit load, unlike [isInBaseline] and
    [getStats]: on a freshly constructed engine it dereferences the null
    index and throws, where the two others answer. *)
Theorem getUnmatched_unloaded_throws (h : host) (o : options) (f : string)
    (r l m : jsval) :
  getUnmatched (constructor h o) = Throw "TypeError"
  /\ (exists b, isInBaseline h (constructor h o) f r l m = Ok (b, false)
                \/ isInBaseline h (constructor h o) f r l m = Ok (b, true))
  /\ (exists b st, getStats h (constructor h o) = Ok (b, st)).
Proof.
  split; [reflexivity|]. split.
  - unfold isInBaseline. simpl.
    destruct (_ !! _) as [hs|]; [|eauto].
    destruct (hs !! _) as [c|]; [|eauto].
    destruct (negb _ && _); [|eauto]. destruct (c =? 1); eauto.
  - unfold getStats. simpl. eauto.
Qed.

(** C9: on a loaded engine [load] changes nothing and returns the cached
    document, whatever is on disk; [reset] clears document, index and flag;
    and the next [load] reads the disk again. *)
Theorem load_idempotent_until_reset (h : host) (b : Baseline) :
  loaded b = true ->
  load h b = (b, data b)
  /\ data (reset b) = None /\ index (reset b) = None /\ loaded (reset b) = false
  /\ (let d := if splitByRule b then _loadSplitBaseline h b
               else _loadSingleBaseline h b in
      load h (reset b)
      = (mkBaseline (cwd b) (baselineFile b) (splitByRule b)
                    (Some d) (Some (_buildIndex d)) true,
         Some d)).
Proof.
  intros E. split.
  - unfold load. by rewrite E.
  - repeat split.
Qed.

Lemma load_idempotent_until_reset_witness :
  let h := Host "/work" ∅ ∅ in
  let b := Sample.loadedFrom Sample.single Sample.twice in
  load h b = (b, data b)
  /\ data (reset b) = None /\ index (reset b) = None /\ loaded (reset b) = false
  /\ (let d := if splitByRule b then _loadSplitBaseline h b
               else _loadSingleBaseline h b in
      load h (reset b)
      = (mkBaseline (cwd b) (baselineFile b) (splitByRule b)
                    (Some d) (Some (_buildIndex d)) true,
         Some d)).
Proof.
  apply (load_idempotent_until_reset (Host "/work" ∅ ∅)
           (Sample.loadedFrom Sample.single Sample.twice)).
  reflexivity.
Defined.

(** ** The match index *)

Lemma hashCount_nonneg (hash : string) (errors : list json) : 0 <= hashCount hash errors.
Proof. unfold hashCount. lia. Qed.

Lemma hashCount_cons (hash : string) (e : json) (errors : list json) :
  hashCount hash (e :: errors)
  = (if String.eqb (hashOf e) hash then 1 else 0) + hashCount hash errors.
Proof.
  unfold hashCount. cbn [List.filter].
  destruct (String.eqb (hashOf e) hash); cbn [length]; lia.
Qed.

Lemma countHashes_fold (errors : list json) (acc : hashes) (hash : string) :
  foldl (fun (hs : hashes) error =>
           let hash := hashOf error in
           <[hash := or_zero (hs !! hash) + 1]> hs)
        acc errors !! hash
  = if hashCount hash errors =? 0 then acc !! hash
    else Some (or_zero (acc !! hash) + hashCount hash errors).
Proof.
  revert acc. induction errors as [|e es IH]; intros acc; [done|].
  cbn [foldl]. rewrite IH, hashCount_cons. cbv zeta.
  pose proof (hashCount_nonneg hash es) as Hn.
  destruct (String.eqb (hashOf e) hash) eqn:He.
  - apply String.eqb_eq in He. subst hash. rewrite lookup_insert_eq.
    replace (1 + hashCount (hashOf e) es =? 0) with false by lia.
    destruct (hashCount (hashOf e) es =? 0) eqn:Hz.
    + f_equal. apply Z.eqb_eq in Hz. lia.
    + f_equal. cbv [or_zero default from_option id]. lia.
  - apply String.eqb_neq in He. by rewrite lookup_insert_ne.
Qed.

Lemma countHashes_lookup (errors : list json) (hash : string) :
  countHashes errors !! hash
  = if hashCount hash errors =? 0 then None else Some (hashCount hash errors).
Proof.
  unfold countHashes. rewrite countHashes_fold, lookup_empty.
  destruct (hashCount hash errors =? 0); [done|]. f_equal.
Qed.

(** The index built from a document holds, for a file and a fingerprint,
    the number of entries the document records for them, and holds nothing
    where it records none. *)
Lemma remaining_buildIndex (d : document) (file hash : string) :
  remaining (_buildIndex d) file hash
  = if multiplicity d file hash =? 0 then None else Some (multiplicity d file hash).
Proof.
  unfold remaining, _buildIndex, multiplicity. rewrite lookup_fmap.
  destruct (d !! file) as [es|]; cbn [fmap option_fmap option_map mbind option_bind default from_option id];
    [apply countHashes_lookup|done].
Qed.

Lemma positive_buildIndex (d : document) : positive_counts (_buildIndex d).
Proof.
  intros f h c. rewrite remaining_buildIndex.
  pose proof (hashCount_nonneg h (default [] (d !! f))) as Hn.
  fold (multiplicity d f h) in Hn.
  destruct (multiplicity d f h =? 0) eqn:Hz; [done|].
  apply Z.eqb_neq in Hz. intros [= <-]. lia.
Qed.

Lemma remainingCount_buildIndex (d : document) (k : string * string) :
  remainingCount (_buildIndex d) k = multiplicity d k.1 k.2.
Proof.
  unfold remainingCount. rewrite remaining_buildIndex.
  destruct (multiplicity d k.1 k.2 =? 0) eqn:Hz; [|done].
  apply Z.eqb_eq in Hz. by rewrite Hz.
Qed.

(** ** Consuming lookups *)

Lemma remaining_insert (idx : matchIndex) (file : string) (hs : hashes)
    (f' h' : string) :
  remaining (<[file := hs]> idx) f' h'
  = if decide (file = f') then hs !! h' else remaining idx f' h'.
Proof.
  unfold remaining. rewrite lookup_insert. by destruct (decide (file = f')).
Qed.

Lemma occurrences_nonneg (k : string * string) (ks : list (string * string)) :
  0 <= occurrences k ks.
Proof. unfold occurrences. lia. Qed.

Lemma occurrences_snoc (k k' : string * string) (ks : list (string * string)) :
  occurrences k (ks ++ [k'])
  = occurrences k ks + (if bool_decide (k' = k) then 1 else 0).
Proof.
  unfold occurrences. rewrite List.filter_app, length_app. cbn [List.filter].
  destruct (bool_decide (k' = k)); cbn [length]; lia.
Qed.

(** One lookup on a loaded engine whose counts are positive. *)
Lemma isInBaseline_step (h : host) (b : Baseline) (idx : matchIndex) (q : query) :
  loaded b = true ->
  index b = Some idx ->
  positive_counts idx ->
  let k := queryKey h b q in
  exists idx',
    isInBaseline h b (q_file q) (q_ruleId q) (q_line q) (q_message q)
    = Ok (with_index b idx', bool_decide (0 < remainingCount idx k))
    /\ positive_counts idx'
    /\ forall k',
         remainingCount idx' k'
         = remainingCount idx k'
           - (if bool_decide (k' = k /\ 0 < remainingCount idx k) then 1 else 0).
Proof.
  intros Hl Hi Hpos k. unfold isInBaseline. rewrite Hl, Hi.
  unfold queryKey in k. set (file := path_relative _ _ _) in *.
  set (hash := _generateHash _ _ _) in *.
  assert (Hk : remainingCount idx k = default 0 (remaining idx file hash)) by done.
  assert (Hstay : forall c : Z, c <= 0 ->
            forall k' : string * string,
              remainingCount idx k' = remainingCount idx k'
                - (if bool_decide (k' = k /\ 0 < c) then 1 else 0)).
  { intros c Hc k'. rewrite bool_decide_eq_false_2 by lia. lia. }
  unfold remaining in Hk.
  destruct (idx !! file) as [hs|] eqn:Hf; cbn [mbind option_bind default from_option id] in Hk.
  2:{ exists idx. rewrite with_index_same by done. rewrite Hk.
      split; [done|]. split; [done|]. apply Hstay. lia. }
  destruct (hs !! hash) as [count|] eqn:Hh; cbn [default from_option id] in Hk.
  2:{ exists idx. rewrite with_index_same by done. rewrite Hk.
      split; [done|]. split; [done|]. apply Hstay. lia. }
  assert (Hc : 1 <= count).
  { apply (Hpos file hash). unfold remaining. by rewrite Hf. }
  rewrite Hk. rewrite (bool_decide_eq_true_2 (0 < count)) by lia.
  replace (negb (count =? 0) && (0 <? count)) with true
    by (symmetry; apply andb_true_iff; split; [apply negb_true_iff|]; lia).
  assert (Hother : forall (hs' : hashes) k',
            k' <> k ->
            (forall h', h' <> hash -> hs' !! h' = hs !! h') ->
            remainingCount (<[file := hs']> idx) k' = remainingCount idx k').
  { intros hs' [f' h'] Hne Hsame. unfold remainingCount. cbn [fst snd].
    rewrite remaining_insert. destruct (decide (file = f')) as [<-|]; [|done].
    unfold remaining. rewrite Hf. cbn [mbind option_bind]. rewrite Hsame; [done|].
    intros ->. by apply Hne. }
  assert (Hat : forall hs' : hashes,
            remainingCount (<[file := hs']> idx) k = default 0 (hs' !! hash)).
  { intros hs'. unfold remainingCount. cbn [fst snd]. rewrite remaining_insert.
    by rewrite decide_True. }
  destruct (count =? 1) eqn:H1.
  - apply Z.eqb_eq in H1. rewrite H1 in Hh, Hk.
    exists (<[file := delete hash hs]> idx). split; [done|]. split.
    + intros f' h' c. rewrite remaining_insert.
      destruct (decide (file = f')) as [<-|].
      * destruct (decide (h' = hash)) as [->|Hne].
        { by rewrite lookup_delete_eq. }
        rewrite lookup_delete_ne by done. intros Hc'.
        apply (Hpos file h'). unfold remaining. by rewrite Hf.
      * apply Hpos.
    + intros k'. destruct (decide (k' = k)) as [->|Hne].
      * rewrite bool_decide_eq_true_2 by (split; [done|lia]).
        rewrite Hat, lookup_delete_eq, Hk. cbn [default from_option id]. lia.
      * rewrite bool_decide_eq_false_2 by tauto.
        rewrite Hother; [lia|done|]. intros h' Hh'.
        by rewrite lookup_delete_ne.
  - apply Z.eqb_neq in H1.
    exists (<[file := <[hash := count - 1]> hs]> idx). split; [done|]. split.
    + intros f' h' c. rewrite remaining_insert.
      destruct (decide (file = f')) as [<-|].
      * destruct (decide (h' = hash)) as [->|Hne].
        { rewrite lookup_insert_eq. intros [= <-]. lia. }
        rewrite lookup_insert_ne by done. intros Hc'.
        apply (Hpos file h'). unfold remaining. by rewrite Hf.
      * apply Hpos.
    + intros k'. destruct (decide (k' = k)) as [->|Hne].
      * rewrite bool_decide_eq_true_2 by (split; [done|lia]).
        rewrite Hat, lookup_insert_eq, Hk. cbn [default from_option id]. lia.
      * rewrite bool_decide_eq_false_2 by tauto.
        rewrite Hother; [lia|done|]. intros h' Hh'.
        by rewrite lookup_insert_ne.
Qed.

(** A pass of lookups, on an index that started with [base k] entries under
    each key [k] and has answered the keys [seen] so far. *)
Lemma lookups_pass (h : host) (base : string * string -> Z) (qs : list query) :
  forall (b : Baseline) (idx : matchIndex) (seen : list (string * string)),
    loaded b = true ->
    index b = Some idx ->
    positive_counts idx ->
    (forall k, remainingCount idx k = Z.max 0 (base k - occurrences k seen)) ->
    exists idx',
      lookups h b qs
      = Ok (with_index b idx', expectedAnswers base seen (queryKey h b <$> qs))
      /\ positive_counts idx'
      /\ forall k,
           remainingCount idx' k
           = Z.max 0 (base k - occurrences k (seen ++ (queryKey h b <$> qs))).
Proof.
  induction qs as [|q qs IH]; intros b idx seen Hl Hi Hpos Hrem.
  - exists idx. cbn [lookups fmap list_fmap expectedAnswers].
    rewrite with_index_same by done. rewrite app_nil_r. done.
  - destruct (isInBaseline_step h b idx q Hl Hi Hpos) as (idx1 & Hstep & Hpos1 & Hrem1).
    cbn [lookups]. rewrite Hstep. cbn [bind fst snd].
    set (k := queryKey h b q) in *.
    assert (Hrem1' : forall k', remainingCount idx1 k'
                       = Z.max 0 (base k' - occurrences k' (seen ++ [k]))).
    { intros k'. rewrite Hrem1, occurrences_snoc, !Hrem.
      pose proof (occurrences_nonneg k seen).
      destruct (decide (k' = k)) as [->|Hne].
      - rewrite (bool_decide_eq_true_2 (k = k)) by done.
        destruct (decide (0 < Z.max 0 (base k - occurrences k seen))).
        + rewrite bool_decide_eq_true_2 by done. lia.
        + rewrite bool_decide_eq_false_2 by tauto. lia.
      - rewrite bool_decide_eq_false_2 by tauto.
        rewrite (bool_decide_eq_false_2 (k = k')) by congruence. lia. }
    destruct (IH (with_index b idx1) idx1 (seen ++ [k]) Hl eq_refl Hpos1 Hrem1')
      as (idx2 & -> & Hpos2 & Hrem2).
    exists idx2. cbn [bind fst snd]. split; [|split; [done|]].
    + do 2 f_equal. rewrite fmap_cons. cbn [expectedAnswers]. fold k. f_equal.
      apply bool_decide_ext. rewrite Hrem. pose proof (occurrences_nonneg k seen). lia.
    + intros k'. rewrite Hrem2, fmap_cons, <- app_assoc. done.
Qed.

(** A pass over an engine whose index is the one built from a document. *)
Lemma lookups_fresh (h : host) (b : Baseline) (d : document) (qs : list query) :
  loaded b = true ->
  index b = Some (_buildIndex d) ->
  exists idx',
    lookups h b qs
    = Ok (with_index b idx',
          expectedAnswers (fun k => multiplicity d k.1 k.2) [] (queryKey h b <$> qs))
    /\ positive_counts idx'
    /\ forall k,
         remainingCount idx' k
         = Z.max 0 (multiplicity d k.1 k.2 - occurrences k (queryKey h b <$> qs)).
Proof.
  intros Hl Hi.
  apply (lookups_pass h (fun k => multiplicity d k.1 k.2) qs b (_buildIndex d) []);
    [done|done|apply positive_buildIndex|].
  intros k. rewrite remainingCount_buildIndex.
  pose proof (hashCount_nonneg k.2 (default [] (d !! k.1))).
  unfold multiplicity, occurrences. cbn [List.filter length]. lia.
Qed.

(** The answers to one query repeated. *)
Lemma expectedAnswers_replicate (base : string * string -> Z) (k : string * string)
    (n : nat) :
  forall seen,
    expectedAnswers base seen (replicate n k)
    = (fun i => bool_decide (occurrences k seen + Z.of_nat i < base k)) <$> seq 0 n.
Proof.
  induction n as [|n IH]; intros seen; [done|].
  cbn [replicate expectedAnswers seq fmap list_fmap]. f_equal.
  - apply bool_decide_ext. lia.
  - rewrite IH, <- fmap_S_seq, <- list_fmap_compose. apply list_fmap_ext.
    intros _ i _. cbn [compose]. apply bool_decide_ext.
    rewrite occurrences_snoc, bool_decide_eq_true_2 by done. lia.
Qed.

(** C1: on a loaded engine, a lookup whose fingerprint still has a count of
    at least one for the file (taken relative to the engine root) answers
    true and returns the engine with that count lowered by one in its
    index, the entry dropped when it reaches zero, every other entry and
    every other field as they were; any other lookup answers false and
    changes nothing.  The count an index starts with is the number of
    entries the loaded document records for the file under the fingerprint,
    so that of [n] identical lookups on a freshly built index exactly the
    first that many answer true: a finding recorded twice is matched twice
    and not a third time.  [load] is what builds the index, from the
    document it returns. *)
Theorem isInBaseline_consumes (h : host) (b : Baseline) (idx : matchIndex)
    (filePath : string) (ruleId line message : jsval) :
  loaded b = true ->
  index b = Some idx ->
  let file := path_relative (process_cwd h) (cwd b) filePath in
  let hash := _generateHash ruleId line message in
  (exists b' idx' answer,
     isInBaseline h b filePath ruleId line message = Ok (b', answer)
     /\ cwd b' = cwd b /\ baselineFile b' = baselineFile b
     /\ splitByRule b' = splitByRule b
     /\ data b' = data b /\ loaded b' = true /\ index b' = Some idx'
     /\ match remaining idx file hash with
        | Some count =>
            if decide (1 <= count) then
              answer = true
              /\ remaining idx' file hash
                 = (if decide (count = 1) then None else Some (count - 1))
              /\ forall f' h', (f', h') <> (file, hash) ->
                   remaining idx' f' h' = remaining idx f' h'
            else answer = false /\ idx' = idx
        | None => answer = false /\ idx' = idx
        end)
  /\ (forall d, idx = _buildIndex d ->
       remaining idx file hash
       = (if multiplicity d file hash =? 0 then None
          else Some (multiplicity d file hash))
       /\ forall n,
            answers (lookups h b (replicate n (Query filePath ruleId line message)))
            = Some ((fun i => bool_decide (Z.of_nat i < multiplicity d file hash))
                      <$> seq 0 n))
  /\ forall b0, loaded b0 = false ->
       exists d, (load h b0).2 = Some d
                 /\ data (load h b0).1 = Some d
                 /\ index (load h b0).1 = Some (_buildIndex d)
                 /\ loaded (load h b0).1 = true.
Proof.
  intros Hl Hi file hash. split; [|split].
  - unfold isInBaseline. rewrite Hl, Hi.
    fold file. fold hash. unfold remaining.
    destruct (idx !! file) as [hs|] eqn:Hf; cbn [mbind option_bind];
      [|by exists b, idx, false].
    destruct (hs !! hash) as [count|] eqn:Hh; [|by exists b, idx, false].
    destruct (decide (1 <= count)) as [Hc|Hc].
    + replace (negb (count =? 0) && (0 <? count)) with true
        by (symmetry; apply andb_true_iff; split;
            [apply negb_true_iff; lia | lia]).
      destruct (decide (count = 1)) as [->|Hne].
      * cbn [Z.eqb Pos.eqb].
        exists (with_index b (<[file := delete hash hs]> idx)),
               (<[file := delete hash hs]> idx), true.
        repeat (split; [done|]). split.
        { rewrite lookup_insert_eq. cbn [mbind option_bind]. apply lookup_delete_eq. }
        intros f' h' Hne. fold (remaining (<[file:=delete hash hs]> idx) f' h').
        rewrite remaining_insert. destruct (decide (file = f')) as [<-|]; [|done].
        unfold remaining. rewrite Hf. cbn [mbind option_bind].
        apply lookup_delete_ne. congruence.
      * replace (count =? 1) with false by (symmetry; lia).
        exists (with_index b (<[file := <[hash := count - 1]> hs]> idx)),
               (<[file := <[hash := count - 1]> hs]> idx), true.
        repeat (split; [done|]). split.
        { rewrite lookup_insert_eq. cbn [mbind option_bind]. apply lookup_insert_eq. }
        intros f' h' Hne'.
        fold (remaining (<[file:=<[hash:=count - 1]> hs]> idx) f' h').
        rewrite remaining_insert. destruct (decide (file = f')) as [<-|]; [|done].
        unfold remaining. rewrite Hf. cbn [mbind option_bind].
        apply lookup_insert_ne. congruence.
    + replace (negb (count =? 0) && (0 <? count)) with false
        by (symmetry; apply andb_false_iff; right; lia).
      by exists b, idx, false.
  - intros d ->. split; [apply remaining_buildIndex|]. intros n.
    destruct (lookups_fresh h b d (replicate n (Query filePath ruleId line message))
                Hl Hi) as (idx' & -> & _ & _).
    cbn [answers]. f_equal. rewrite fmap_replicate, expectedAnswers_replicate.
    apply list_fmap_ext. intros _ i _. apply bool_decide_ext.
    unfold occurrences, queryKey. cbn [List.filter length fst snd q_file q_ruleId
      q_line q_message]. fold file. fold hash. lia.
  - intros b0 E. unfold load. rewrite E. cbn [fst snd data index loaded]. eauto.
Qed.

Lemma isInBaseline_consumes_witness :
  let h := Sample.onDisk Sample.single Sample.twice in
  let b := Sample.loadedFrom Sample.single Sample.twice in
  let idx := _buildIndex Sample.twice in
  let filePath := "/repo/src/f.js" in
  let ruleId := Sample.str "r" in
  let line := Sample.num 5 in
  let message := Sample.str "m" in
  let file := path_relative (process_cwd h) (cwd b) filePath in
  let hash := _generateHash ruleId line message in
  (exists b' idx' answer,
     isInBaseline h b filePath ruleId line message = Ok (b', answer)
     /\ cwd b' = cwd b /\ baselineFile b' = baselineFile b
     /\ splitByRule b' = splitByRule b
     /\ data b' = data b /\ loaded b' = true /\ index b' = Some idx'
     /\ match remaining idx file hash with
        | Some count =>
            if decide (1 <= count) then
              answer = true
              /\ remaining idx' file hash
                 = (if decide (count = 1) then None else Some (count - 1))
              /\ forall f' h', (f', h') <> (file, hash) ->
                   remaining idx' f' h' = remaining idx f' h'
            else answer = false /\ idx' = idx
        | None => answer = false /\ idx' = idx
        end)
  /\ (forall d, idx = _buildIndex d ->
       remaining idx file hash
       = (if multiplicity d file hash =? 0 then None
          else Some (multiplicity d file hash))
       /\ forall n,
            answers (lookups h b (replicate n (Query filePath ruleId line message)))
            = Some ((fun i => bool_decide (Z.of_nat i < multiplicity d file hash))
                      <$> seq 0 n))
  /\ forall b0, loaded b0 = false ->
       exists d, (load h b0).2 = Some d
                 /\ data (load h b0).1 = Some d
                 /\ index (load h b0).1 = Some (_buildIndex d)
                 /\ loaded (load h b0).1 = true.
Proof.
  apply (isInBaseline_consumes (Sample.onDisk Sample.single Sample.twice)
           (Sample.loadedFrom Sample.single Sample.twice)
           (_buildIndex Sample.twice)).
  - reflexivity.
  - vm_compute. reflexivity.
Defined.

(** The finding recorded twice is matched twice and not a third time, and
    nothing is left unmatched afterwards. *)
Example duplicate_matched_twice :
  let h := Sample.onDisk Sample.single Sample.twice in
  let b := Sample.loadedFrom Sample.single Sample.twice in
  let q := Query "/repo/src/f.js" (Sample.str "r") (Sample.num 5) (Sample.str "m") in
  multiplicity Sample.twice "src/f.js" (_generateHash (q_ruleId q) (q_line q) (q_message q))
  = 2
  /\ answers (lookups h b [q; q; q]) = Some [true; true; false]
  /\ bind (lookups h b [q; q; q]) (fun br => getUnmatched br.1) = Ok [].
Proof. vm_compute. repeat split; reflexivity. Qed.

(** A lookup changes nothing but the index. *)
Lemma isInBaseline_frame (h : host) (b : Baseline) (idx : matchIndex)
    (filePath : string) (ruleId line message : jsval) :
  loaded b = true ->
  index b = Some idx ->
  exists idx' ans,
    isInBaseline h b filePath ruleId line message = Ok (with_index b idx', ans).
Proof.
  intros Hl Hi. unfold isInBaseline. rewrite Hl, Hi.
  set (file := path_relative _ _ _).
  assert (Hsame : Ok (b, false) = Ok (with_index b idx, false))
    by (by rewrite with_index_same).
  destruct (idx !! file) as [hs|]; [|eauto].
  destruct (hs !! _) as [count|]; [|eauto].
  destruct (negb _ && _); [|eauto].
  destruct (count =? 1); eauto.
Qed.

Lemma lookups_frame (h : host) (qs : list query) :
  forall (b : Baseline) (idx : matchIndex),
    loaded b = true ->
    index b = Some idx ->
    exists idx' rs, lookups h b qs = Ok (with_index b idx', rs).
Proof.
  induction qs as [|q qs IH]; intros b idx Hl Hi; simpl.
  - exists idx, []. by rewrite with_index_same.
  - destruct (isInBaseline_frame h b idx (q_file q) (q_ruleId q) (q_line q)
                (q_message q) Hl Hi) as (idx1 & ans & ->).
    simpl. destruct (IH (with_index b idx1) idx1 Hl eq_refl) as (idx2 & rs & ->).
    simpl. exists idx2, (ans :: rs). reflexivity.
Qed.

(** C8: on a loaded engine, whatever lookups are made, they all answer, and
    [getStats] on the engine they leave behind reports the same totals as
    before them: the scan of the loaded document. *)
Theorem getStats_unaffected_by_lookups (h : host) (b : Baseline)
    (d : document) (idx : matchIndex) (qs : list query) :
  loaded b = true ->
  data b = Some d ->
  index b = Some idx ->
  exists b' rs,
    lookups h b qs = Ok (b', rs)
    /\ getStats h b = Ok (b, scanStats d)
    /\ getStats h b' = Ok (b', scanStats d).
Proof.
  intros Hl Hd Hi.
  destruct (lookups_frame h qs b idx Hl Hi) as (idx' & rs & E).
  exists (with_index b idx'), rs. split; [exact E|]. split.
  - unfold getStats. by rewrite Hl, Hd.
  - unfold getStats. simpl. rewrite Hl. simpl. by rewrite Hd.
Qed.

Lemma getStats_unaffected_by_lookups_witness :
  let h := Sample.onDisk Sample.single Sample.twice in
  let b := Sample.loadedFrom Sample.single Sample.twice in
  let q := Query "/repo/src/f.js" (Sample.str "r") (Sample.num 5) (Sample.str "m") in
  exists b' rs,
    lookups h b [q; q; q] = Ok (b', rs)
    /\ getStats h b = Ok (b, scanStats Sample.twice)
    /\ getStats h b' = Ok (b', scanStats Sample.twice).
Proof.
  apply (getStats_unaffected_by_lookups
           (Sample.onDisk Sample.single Sample.twice)
           (Sample.loadedFrom Sample.single Sample.twice)
           Sample.twice (_buildIndex Sample.twice)).
  - reflexivity.
  - vm_compute. reflexivity.
  - vm_compute. reflexivity.
Defined.

(** ** Validation on load *)

Lemma validate_as_fold (members : list (string * json)) :
  _validateBaselineData (JObj members) = foldl validateMember ∅ members.
Proof.
  unfold _validateBaselineData. generalize (∅ : document).
  induction members as [|[k v] members IH]; intros acc; simpl; [done|].
  rewrite IH. f_equal. unfold validateMember, validEntries. simpl.
  destruct v; try done. by destruct (List.filter isValidError items).
Qed.

Lemma validate_fold_fresh (members : list (string * json)) (acc : document)
    (f : string) :
  f ∉ members.*1 -> foldl validateMember acc members !! f = acc !! f.
Proof.
  revert acc. induction members as [|[k v] members IH]; intros acc Hf; simpl; [done|].
  rewrite fmap_cons, not_elem_of_cons in Hf. destruct Hf as [Hne Hf]. simpl in Hne.
  rewrite IH by done. unfold validateMember. simpl.
  destruct (validEntries v); [|done]. by rewrite lookup_insert_ne.
Qed.

Lemma validate_fold_lookup (members : list (string * json)) (acc : document)
    (f : string) (v : json) :
  NoDup members.*1 -> (f, v) ∈ members ->
  foldl validateMember acc members !! f
  = match validEntries v with Some l => Some l | None => acc !! f end.
Proof.
  revert acc. induction members as [|[k w] members IH]; intros acc Hnd Hin.
  { by apply elem_of_nil in Hin. }
  rewrite fmap_cons in Hnd. apply NoDup_cons in Hnd as [Hk Hnd]. simpl in Hk.
  apply elem_of_cons in Hin as [[= <- <-]|Hin]; simpl.
  - rewrite validate_fold_fresh by done. unfold validateMember. simpl.
    destruct (validEntries v); [|done]. by rewrite lookup_insert_eq.
  - rewrite IH by done. destruct (validEntries v); [done|].
    unfold validateMember. simpl. destruct (validEntries w); [|done].
    rewrite lookup_insert_ne; [done|].
    intros ->. apply Hk. apply list_elem_of_fmap. by exists (f, v).
Qed.

Lemma validate_lookup (members : list (string * json)) (f : string) (v : json) :
  NoDup members.*1 -> (f, v) ∈ members ->
  _validateBaselineData (JObj members) !! f = validEntries v.
Proof.
  intros Hnd Hin. rewrite validate_as_fold, (validate_fold_lookup _ _ _ v) by done.
  by destruct (validEntries v).
Qed.

Lemma validate_lookup_None (members : list (string * json)) (f : string) :
  f ∉ members.*1 -> _validateBaselineData (JObj members) !! f = None.
Proof. intros Hf. by rewrite validate_as_fold, validate_fold_fresh. Qed.

Lemma isValidError_iff (e : json) :
  isValidError e = true <->
  exists ms r l, e = JObj ms /\ assoc "ruleId" ms = Some (JStr r)
                 /\ assoc "line" ms = Some (JNum l).
Proof.
  split.
  - destruct e as [| | | | |ms]; try discriminate. unfold isValidError. simpl.
    destruct (assoc "ruleId" ms) as [[]|] eqn:Hr; try discriminate.
    destruct (assoc "line" ms) as [[]|] eqn:Hline; try discriminate.
    eauto 6.
  - intros (ms & r & l & -> & Hr & Hline). unfold isValidError. simpl.
    by rewrite Hr, Hline.
Qed.




(** ** Pruning *)


Lemma elem_of_hashSet (current : list json) (hash : string) :
  hash ∈ hashSet current <-> hash ∈ hashOf <$> current.
Proof.
  unfold hashSet.
  assert (G : forall acc : gset string,
             hash ∈ foldl (fun (hs : gset string) error => {[hashOf error]} ∪ hs) acc current
             <-> hash ∈ acc \/ hash ∈ hashOf <$> current).
  { induction current as [|c cs IH]; intros acc; simpl.
    - rewrite elem_of_nil. tauto.
    - rewrite IH, elem_of_union, elem_of_singleton, elem_of_cons. tauto. }
  rewrite G, elem_of_empty. tauto.
Qed.

Lemma entryCount_empty : entryCount ∅ = 0.
Proof. reflexivity. Qed.

Lemma entryCount_insert (d : document) (f : string) (es : list json) :
  d !! f = None -> entryCount (<[f := es]> d) = entryCount d + Z.of_nat (length es).
Proof.
  intros Hf. unfold entryCount. rewrite map_fold_insert_L; [done| |done].
  intros. lia.
Qed.

Lemma entryCount_nonneg (d : document) : 0 <= entryCount d.
Proof.
  unfold entryCount. apply (map_fold_weak_ind (fun n _ => 0 <= n)); [done|].
  intros. lia.
Qed.

Lemma pruneFile_loop (P : json -> bool) (errors : list json) :
  forall (kept0 : list json) (r0 k0 : Z),
    foldl (fun '(keptErrors, removed, kept) error =>
             if P error then (keptErrors ++ [error], removed, kept + 1)
             else (keptErrors, removed + 1, kept))
          (kept0, r0, k0) errors
    = (kept0 ++ List.filter P errors,
       r0 + Z.of_nat (length errors) - Z.of_nat (length (List.filter P errors)),
       k0 + Z.of_nat (length (List.filter P errors))).
Proof.
  induction errors as [|e es IH]; intros kept0 r0 k0; simpl.
  - rewrite app_nil_r, !pair_equal_spec. repeat split; lia.
  - destruct (P e); rewrite IH; simpl; rewrite <- ?app_assoc; simpl;
      rewrite !pair_equal_spec; repeat split; lia.
Qed.

Lemma pruneFile_spec (current : document) (file : string) (errors : list json)
    (acc : pruneAcc) :
  let acc' := pruneFile (hashSet <$> current) file errors acc in
  let kept := default [] (prunedEntries (Some errors) (current !! file)) in
  acc_pruned acc'
    = match prunedEntries (Some errors) (current !! file) with
      | Some l => <[file := l]> (acc_pruned acc)
      | None => acc_pruned acc
      end
  /\ acc_kept acc' = acc_kept acc + Z.of_nat (length kept)
  /\ acc_removed acc' = acc_removed acc + Z.of_nat (length errors) - Z.of_nat (length kept).
Proof.
  unfold pruneFile. rewrite lookup_fmap.
  destruct (current !! file) as [cs|]; simpl.
  - rewrite (pruneFile_loop (fun error => bool_decide (hashOf error ∈ hashSet cs))).
    simpl.
    assert (E : List.filter (fun error => bool_decide (hashOf error ∈ hashSet cs)) errors
                = stillPresent cs errors).
    { unfold stillPresent. apply filter_ext. intros e.
      apply bool_decide_ext, elem_of_hashSet. }
    rewrite E. destruct (stillPresent cs errors) as [|k ks]; simpl.
    + repeat split; lia.
    + repeat split; lia.
  - repeat split; lia.
Qed.

Lemma prune_fold (current d : document) :
  let acc := map_fold (pruneFile (hashSet <$> current)) (PruneAcc ∅ 0 0) d in
  (forall f, acc_pruned acc !! f = prunedEntries (d !! f) (current !! f))
  /\ acc_kept acc = entryCount (acc_pruned acc)
  /\ acc_kept acc + acc_removed acc = entryCount d.
Proof.
  cbv zeta.
  apply (map_fold_weak_ind
           (fun acc d =>
              (forall f, acc_pruned acc !! f = prunedEntries (d !! f) (current !! f))
              /\ acc_kept acc = entryCount (acc_pruned acc)
              /\ acc_kept acc + acc_removed acc = entryCount d)).
  - simpl. split; [|done]. intros f. by rewrite !lookup_empty.
  - intros file errors m acc Hfresh (Hlook & Hkept & Htotal).
    destruct (pruneFile_spec current file errors acc) as (Hp & Hk & Hr).
    assert (Hnone : acc_pruned acc !! file = None) by (by rewrite Hlook, Hfresh).
    split; [|split].
    + intros f. rewrite Hp. destruct (decide (file = f)) as [<-|Hne].
      * rewrite lookup_insert_eq.
        destruct (prunedEntries (Some errors) (current !! file));
          [by rewrite lookup_insert_eq | done].
      * rewrite (lookup_insert_ne m) by done. rewrite <- Hlook.
        destruct (prunedEntries (Some errors) (current !! file));
          [by rewrite lookup_insert_ne | done].
    + rewrite Hk, Hp.
      destruct (prunedEntries (Some errors) (current !! file)); simpl.
      * rewrite entryCount_insert by done. lia.
      * lia.
    + rewrite Hk, Hr, entryCount_insert by done. lia.
Qed.

(** C6: on a loaded engine holding document [B], [prune C] answers, leaves
    the engine as it was, and returns for each file the entries of [B]
    whose fingerprint occurs among [C]'s findings for that file, in their
    original order; a file with no such entry (in particular a file absent
    from [C]) is dropped rather than kept with an empty array; [keptCount]
    counts the entries returned and [keptCount + removedCount] the entries
    of [B]. *)
Theorem prune_keeps_present (h : host) (b : Baseline) (B C : document) :
  loaded b = true ->
  data b = Some B ->
  exists r,
    prune h b C = Ok (b, r)
    /\ (forall f, pruned_data r !! f = prunedEntries (B !! f) (C !! f))
    /\ (forall f, C !! f = None -> pruned_data r !! f = None)
    /\ (forall f l, pruned_data r !! f = Some l -> l <> [])
    /\ keptCount r = entryCount (pruned_data r)
    /\ keptCount r + removedCount r = entryCount B.
Proof.
  intros Hl Hd. unfold prune. rewrite Hl, Hd.
  destruct (prune_fold C B) as (Hlook & Hkept & Htotal).
  eexists. split; [reflexivity|]. simpl.
  split; [exact Hlook|]. split; [|split; [|split; [exact Hkept|exact Htotal]]].
  - intros f Hf. rewrite Hlook, Hf. by destruct (B !! f).
  - intros f l. rewrite Hlook. unfold prunedEntries.
    destruct (B !! f) as [es|]; [|done]. destruct (C !! f) as [cs|]; [|done].
    destruct (stillPresent cs es); [done|]. by intros [= <-].
Qed.

Lemma prune_keeps_present_witness :
  let h := Sample.onDisk Sample.single Sample.three in
  let b := Sample.loadedFrom Sample.single Sample.three in
  let C : document :=
    {[ "src/f.js" := [finding "no-var" 3 1 "A"; finding "eqeqeq" 7 1 "B"] ]} in
  exists r,
    prune h b C = Ok (b, r)
    /\ (forall f, pruned_data r !! f = prunedEntries (Sample.three !! f) (C !! f))
    /\ (forall f, C !! f = None -> pruned_data r !! f = None)
    /\ (forall f l, pruned_data r !! f = Some l -> l <> [])
    /\ keptCount r = entryCount (pruned_data r)
    /\ keptCount r + removedCount r = entryCount Sample.three.
Proof.
  apply (prune_keeps_present
           (Sample.onDisk Sample.single Sample.three)
           (Sample.loadedFrom Sample.single Sample.three)
           Sample.three).
  - reflexivity.
  - vm_compute. reflexivity.
Defined.

(** The two prune scenarios: one of three findings fixed, and the file gone
    from the current findings altogether. *)
Example prune_three :
  let h := Sample.onDisk Sample.single Sample.three in
  let b := Sample.loadedFrom Sample.single Sample.three in
  let summary (r : result (Baseline * pruneResult)) :=
    (fun p => (map_to_list (pruned_data p), removedCount p, keptCount p)) <$> answers r in
  summary (prune h b {[ "src/f.js" := [finding "no-var" 3 1 "A"; finding "eqeqeq" 7 1 "B"] ]})
    = Some ([("src/f.js", [finding "no-var" 3 1 "A"; finding "eqeqeq" 7 1 "B"])], 1, 2)
  /\ summary (prune h b ∅) = Some ([], 3, 0).
Proof. vm_compute. split; reflexivity. Qed.

(** ** Sorting *)

Lemma foldl_insert_unless {A} (skip : string) (g : string -> A) (keys : list string)
    (acc : gmap string A) (k : string) :
  foldl (fun (m : gmap string A) key =>
           if bool_decide (key = skip) then m else <[key := g key]> m) acc keys !! k
  = if decide (k ∈ keys /\ k <> skip) then Some (g k) else acc !! k.
Proof.
  revert acc. induction keys as [|key keys IH]; intros acc; cbn [foldl].
  - rewrite decide_False; [done|]. intros [H _]. by apply elem_of_nil in H.
  - rewrite IH.
    destruct (decide (k ∈ keys /\ k <> skip)) as [[Hin Hk]|Hin].
    + rewrite decide_True; [done|]. split; [by apply elem_of_cons; right|done].
    + destruct (decide (k = key /\ k <> skip)) as [[-> Hk]|Hne].
      * rewrite decide_True by (split; [by apply elem_of_cons; left|done]).
        rewrite bool_decide_eq_false_2 by done. by rewrite lookup_insert_eq.
      * rewrite decide_False.
        2:{ intros [Hin' Hk]. apply elem_of_cons in Hin' as [->|?]; tauto. }
        destruct (bool_decide (key = skip)) eqn:Hs; [done|].
        apply bool_decide_eq_false in Hs.
        rewrite lookup_insert_ne; [done|]. intros ->.
        destruct (decide (k = skip)) as [->|?]; tauto.
Qed.

Lemma elem_of_keys {A} (m : gmap string A) (k : string) :
  k ∈ (map_to_list m).*1 <-> is_Some (m !! k).
Proof.
  rewrite list_elem_of_fmap. split.
  - intros ([k' v] & -> & Hin). apply elem_of_map_to_list in Hin. eauto.
  - intros [v Hv]. exists (k, v). split; [done|]. by apply elem_of_map_to_list.
Qed.

Section Sorting.

Variable localeCompare : string -> string -> Z.

Lemma insertSorted_perm (e : json) (l : list json) :
  insertSorted localeCompare e l ≡ₚ e :: l.
Proof.
  induction l as [|x l IH]; cbn [insertSorted]; [done|].
  destruct (compareErrors localeCompare e x <=? 0); [done|].
  rewrite IH. apply perm_swap.
Qed.

Lemma sortErrors_perm (es : list json) : sortErrors localeCompare es ≡ₚ es.
Proof.
  induction es as [|e es IH]; [done|].
  unfold sortErrors. cbn [foldr]. fold (sortErrors localeCompare es).
  by rewrite insertSorted_perm, IH.
Qed.






Lemma sortBaseline_lookup (d : document) (k : string) :
  _sortBaseline localeCompare d !! k
  = if decide (k = "__proto__") then None
    else sortErrors localeCompare <$> d !! k.
Proof.
  unfold _sortBaseline.
  rewrite (foldl_insert_unless "__proto__"
             (fun key => sortErrors localeCompare (default [] (d !! key)))).
  rewrite lookup_empty.
  destruct (decide (k = "__proto__")) as [->|Hk].
  - rewrite decide_False; [done|]. tauto.
  - destruct (d !! k) as [es|] eqn:Hd.
    + rewrite decide_True; [done|]. split; [|done].
      rewrite merge_sort_Permutation, elem_of_keys. eauto.
    + rewrite decide_False; [done|]. intros [Hin _].
      rewrite merge_sort_Permutation, elem_of_keys, Hd in Hin. by destruct Hin.
Qed.

Lemma sortBaseline_fmap (d : document) :
  d !! "__proto__" = None ->
  _sortBaseline localeCompare d = sortErrors localeCompare <$> d.
Proof.
  intros Hp. apply map_eq. intros k. rewrite sortBaseline_lookup, lookup_fmap.
  destruct (decide (k = "__proto__")) as [->|]; [by rewrite Hp|done].
Qed.

Lemma findings_only_sorted (d : document) :
  findings_only d -> findings_only (sortErrors localeCompare <$> d).
Proof.
  intros Hv f es. rewrite lookup_fmap.
  destruct (d !! f) as [es0|] eqn:Hf; cbn [fmap option_fmap option_map]; [|done].
  intros [= <-]. rewrite sortErrors_perm. eauto.
Qed.

Lemma no_empty_file_sorted (d : document) :
  no_empty_file d -> no_empty_file (sortErrors localeCompare <$> d).
Proof.
  intros Hne f. rewrite lookup_fmap.
  destruct (d !! f) as [es0|] eqn:Hf; cbn [fmap option_fmap option_map]; [|done].
  intros [= E]. apply (Hne f). rewrite Hf. f_equal.
  apply Permutation_nil. by rewrite <- E, sortErrors_perm.
Qed.


End Sorting.



(** ** Saving *)

Lemma json_of_document_lookup (d : document) (f : string) :
  _validateBaselineData (json_of_document d) !! f
  = d !! f ≫= (fun es => validEntries (JArr es)).
Proof.
  unfold json_of_document.
  assert (Hkeys : ((fun kv : string * list json => (kv.1, JArr kv.2)) <$> map_to_list d).*1
                  = (map_to_list d).*1).
  { rewrite <- list_fmap_compose. by apply list_fmap_ext. }
  destruct (d !! f) as [es|] eqn:Hf.
  - rewrite (validate_lookup _ f (JArr es)); [done| |].
    + rewrite Hkeys. apply NoDup_fst_map_to_list.
    + apply list_elem_of_fmap. exists (f, es). split; [done|].
      by apply elem_of_map_to_list.
  - rewrite validate_lookup_None; [done|]. rewrite Hkeys, elem_of_keys, Hf.
    by intros [? ?].
Qed.

Lemma filter_all_valid (es : list json) :
  Forall (fun e => isValidError e = true) es -> List.filter isValidError es = es.
Proof.
  induction 1 as [|e es He _ IH]; cbn [List.filter]; [done|]. by rewrite He, IH.
Qed.

Lemma validate_json_of_document (d : document) :
  findings_only d -> no_empty_file d ->
  _validateBaselineData (json_of_document d) = d.
Proof.
  intros Hv Hne. apply map_eq. intros f. rewrite json_of_document_lookup.
  destruct (d !! f) as [es|] eqn:Hf; cbn [mbind option_bind validEntries]; [|done].
  rewrite filter_all_valid by eauto.
  destruct es; [|done]. by destruct (Hne f).
Qed.

Lemma keys_length_zero {A} (m : gmap string A) :
  (Z.of_nat (length (map_to_list m).*1) =? 0) = bool_decide (m = ∅).
Proof.
  rewrite length_fmap. destruct (map_to_list m) as [|kv l] eqn:E; cbn [length].
  - apply map_to_list_empty_iff in E. by rewrite bool_decide_eq_true_2.
  - rewrite bool_decide_eq_false_2; [done|]. intros ->.
    by rewrite map_to_list_empty in E.
Qed.

(** ** Grouping by rule *)

Lemma valid_ruleId (e : json) :
  isValidError e = true -> prop e "ruleId" = Some (JStr (ruleIdOf e)).
Proof.
  intros He. apply isValidError_iff in He as (ms & r & l & -> & Hr & _).
  unfold ruleIdOf. cbn [prop]. by rewrite Hr.
Qed.

Lemma groupError_plain (file : string) (byRule : gmap string document) (e : json) :
  isValidError e = true ->
  inheritedKey file = false -> inheritedKey (sanitized e) = false ->
  groupError file byRule e = Ok (fileUnder file byRule e).
Proof.
  intros He Hf Hr. unfold groupError. rewrite (valid_ruleId e He). cbv zeta.
  fold (sanitized e). by rewrite Hf, Hr.
Qed.

Lemma groupFile_plain (file : string) (errors : list json) :
  forall byRule : gmap string document,
    Forall (fun e => isValidError e = true) errors ->
    (forall e, e ∈ errors ->
       inheritedKey file = false /\ inheritedKey (sanitized e) = false) ->
    foldl (fun acc error => bind acc (fun byRule => groupError file byRule error))
          (Ok byRule) errors
    = Ok (foldl (fileUnder file) byRule errors).
Proof.
  induction errors as [|e es IH]; intros byRule Hv Hp; [done|].
  apply Forall_cons in Hv as [He Hv]. cbn [foldl bind].
  destruct (Hp e) as [Hf Hr]; [by apply elem_of_cons; left|].
  rewrite groupError_plain by done. apply IH; [done|].
  intros e' He'. apply Hp. by apply elem_of_cons; right.
Qed.

(** On a document of findings whose keys are all plain the grouping does
    not throw and files every entry. *)
Lemma groupByRule_plain (d : document) :
  findings_only d -> plain_keys d -> groupByRule d = Ok (grouping d).
Proof.
  intros Hv Hp. unfold groupByRule, grouping. rewrite !map_fold_foldr.
  assert (H : forall kv, kv ∈ map_to_list d -> d !! kv.1 = Some kv.2).
  { intros [k v] Hin. by apply elem_of_map_to_list. }
  induction (map_to_list d) as [|[file errors] l IH]; [done|].
  cbn [foldr uncurry]. rewrite IH.
  2:{ intros kv Hin. apply H. by apply elem_of_cons; right. }
  specialize (H (file, errors)). cbn [fst snd] in H.
  assert (Hd : d !! file = Some errors) by (apply H; by apply elem_of_cons; left).
  apply groupFile_plain; [by apply (Hv file)|].
  intros e He. by apply (Hp file errors).
Qed.

Lemma cell_fileUnder (byRule : gmap string document) (file : string)
    (e : json) (r f : string) :
  cell (fileUnder file byRule e) r f
  = if decide (r = sanitized e /\ f = file)
    then Some (default [] (cell byRule r f) ++ [e])
    else cell byRule r f.
Proof.
  unfold cell, fileUnder.
  destruct (decide (r = sanitized e)) as [->|Hr].
  - rewrite lookup_insert_eq. cbn [mbind option_bind].
    destruct (decide (f = file)) as [->|Hf].
    + rewrite decide_True by done. rewrite lookup_insert_eq.
      by destruct (byRule !! sanitized e).
    + rewrite decide_False by tauto. rewrite lookup_insert_ne by done.
      by destruct (byRule !! sanitized e).
  - rewrite decide_False by tauto. by rewrite lookup_insert_ne.
Qed.

Lemma extend_snoc (o : option (list json)) (l : list json) (e : json) :
  Some (default [] (extend o l) ++ [e]) = extend o (l ++ [e]).
Proof.
  destruct l as [|x l]; cbn [extend app default from_option id]; [done|].
  by rewrite <- app_assoc.
Qed.

Lemma ruleEntries_snoc (r : string) (es : list json) (e : json) :
  ruleEntries r (es ++ [e])
  = ruleEntries r es ++ (if decide (sanitized e = r) then [e] else []).
Proof.
  unfold ruleEntries. rewrite List.filter_app. cbn [List.filter].
  by destruct (decide (sanitized e = r));
    [rewrite bool_decide_eq_true_2 | rewrite bool_decide_eq_false_2].
Qed.

Lemma cell_group_file (file : string) (errors : list json)
    (byRule : gmap string document) (r f : string) :
  cell (foldl (fileUnder file) byRule errors) r f
  = if decide (f = file) then extend (cell byRule r f) (ruleEntries r errors)
    else cell byRule r f.
Proof.
  induction errors as [|e es IH] using rev_ind.
  - cbn [foldl ruleEntries List.filter extend]. by destruct (decide (f = file)).
  - rewrite foldl_app. cbn [foldl]. rewrite cell_fileUnder, IH, ruleEntries_snoc.
    destruct (decide (f = file)) as [->|Hf].
    + destruct (decide (sanitized e = r)) as [<-|Hr].
      * rewrite decide_True by done. apply extend_snoc.
      * rewrite decide_False by (intros [? ?]; congruence).
        by rewrite app_nil_r.
    + by rewrite decide_False by tauto.
Qed.

Lemma cell_grouping (d : document) (r f : string) :
  cell (grouping d) r f = extend None (ruleEntries r (default [] (d !! f))).
Proof.
  revert r f. unfold grouping.
  apply (map_fold_weak_ind
           (fun byRule d => forall r f,
              cell byRule r f = extend None (ruleEntries r (default [] (d !! f))))).
  - intros r f. by rewrite lookup_empty.
  - intros file errors m byRule Hfresh IH r f.
    rewrite cell_group_file, IH. destruct (decide (f = file)) as [->|Hf].
    + rewrite Hfresh, lookup_insert_eq. reflexivity.
    + by rewrite lookup_insert_ne.
Qed.

Lemma extend_None_Some (l es : list json) :
  extend None l = Some es -> es = l /\ l <> [].
Proof. destruct l; [done|]. cbn [extend default from_option id app]. by intros [= <-]. Qed.

Lemma grouping_lookup (d : document) (r f : string) (rd : document)
    (es : list json) :
  grouping d !! r = Some rd -> rd !! f = Some es ->
  es = ruleEntries r (default [] (d !! f)) /\ es <> [].
Proof.
  intros Hr Hf. pose proof (cell_grouping d r f) as H.
  unfold cell in H. rewrite Hr in H. cbn [mbind option_bind] in H. rewrite Hf in H.
  symmetry in H. apply extend_None_Some in H as [-> ?]. done.
Qed.

Lemma elem_of_ruleEntries (r : string) (es : list json) (e : json) :
  e ∈ ruleEntries r es <-> e ∈ es /\ sanitized e = r.
Proof.
  unfold ruleEntries. rewrite list_elem_of_In, filter_In, <- list_elem_of_In.
  by rewrite bool_decide_eq_true.
Qed.

Lemma grouping_elem (d : document) (f : string) (es : list json) (e : json) :
  d !! f = Some es -> e ∈ es ->
  exists rd, grouping d !! sanitized e = Some rd
             /\ rd !! f = Some (ruleEntries (sanitized e) es).
Proof.
  intros Hf He. pose proof (cell_grouping d (sanitized e) f) as H.
  rewrite Hf in H. cbn [default from_option id] in H.
  assert (Hin : e ∈ ruleEntries (sanitized e) es) by (by apply elem_of_ruleEntries).
  unfold cell in H.
  destruct (grouping d !! sanitized e) as [rd|]; cbn [mbind option_bind] in H.
  - exists rd. split; [done|]. rewrite H.
    destruct (ruleEntries (sanitized e) es); [by apply elem_of_nil in Hin|done].
  - destruct (ruleEntries (sanitized e) es); [by apply elem_of_nil in Hin|done].
Qed.

(** A rule document of the grouping holds findings, has no empty file, and
    has the source files of the document. *)
Lemma grouping_findings (d : document) (r : string) (rd : document) :
  findings_only d -> grouping d !! r = Some rd ->
  findings_only rd /\ no_empty_file rd
  /\ forall f, is_Some (rd !! f) ->
       exists es e, d !! f = Some es /\ e ∈ es /\ sanitized e = r.
Proof.
  intros Hv Hr. split; [|split].
  - intros f es Hf. destruct (grouping_lookup d r f rd es Hr Hf) as [-> _].
    apply Forall_forall. intros e He. apply elem_of_ruleEntries in He as [He _].
    destruct (d !! f) as [es0|] eqn:Hd; cbn [default from_option id] in He;
      [|by apply elem_of_nil in He].
    specialize (Hv f es0 Hd). rewrite Forall_forall in Hv. by apply Hv.
  - intros f Hf. by destruct (grouping_lookup d r f rd [] Hr Hf).
  - intros f [es Hf]. destruct (grouping_lookup d r f rd es Hr Hf) as [-> Hne].
    destruct (d !! f) as [es0|] eqn:Hd; cbn [default from_option id] in Hne; [|done].
    cbn [default from_option id].
    destruct (ruleEntries r es0) as [|e l] eqn:E; [done|].
    assert (He : e ∈ ruleEntries r es0) by (rewrite E; by apply elem_of_cons; left).
    apply elem_of_ruleEntries in He as [He Hs]. eauto.
Qed.

(** ** The split directory *)

Section SplitDirectory.

Variable localeCompare : string -> string -> Z.

Lemma write_fold (l : list (string * document)) :
  forall (dir0 : gmap string content) (rf0 : list string),
    foldl (fun '(dir, ruleFiles) '(ruleId, ruleData) =>
             let fileName := ruleId +:+ ".json" in
             (<[fileName := Tree (json_of_document (_sortBaseline localeCompare ruleData))]> dir,
              ruleFiles ++ [fileName]))
          (dir0, rf0) l
    = (foldl (writeRule localeCompare) dir0 l,
       rf0 ++ ((fun kv => ruleFileName kv.1) <$> l)).
Proof.
  induction l as [|[r rd] l IH]; intros dir0 rf0; cbn [foldl fmap list_fmap].
  - by rewrite app_nil_r.
  - rewrite IH. by rewrite <- app_assoc.
Qed.

(** On a document of findings whose keys are all plain,
    [_saveSplitBaseline] replaces the baseline directory and nothing else. *)
Lemma saveSplit_plain (h : host) (b : Baseline) (d : document) :
  findings_only d -> plain_keys d ->
  _saveSplitBaseline localeCompare h b d
  = Ok (writeDir h (getSplitBaselineDir b)
          (splitDirectory localeCompare
             (default ∅ (dirs h !! getSplitBaselineDir b)) d)).
Proof.
  intros Hv Hp. unfold _saveSplitBaseline. rewrite groupByRule_plain by done.
  cbn [bind]. by rewrite write_fold.
Qed.

Lemma ruleFileName_inj (r r' : string) : ruleFileName r = ruleFileName r' -> r = r'.
Proof. apply append_cancel_r. Qed.

Lemma ends_with_refl (s : string) : ends_with s s = true.
Proof. destruct s; cbn [ends_with]; by rewrite String.eqb_refl. Qed.

Lemma ends_with_append (suffix r : string) : ends_with suffix (r +:+ suffix) = true.
Proof.
  induction r as [|c r IH].
  - apply ends_with_refl.
  - change (String c r +:+ suffix) with (String c (r +:+ suffix)).
    cbn [ends_with]. rewrite IH.
    by destruct (String.eqb (String c (r +:+ suffix)) suffix).
Qed.

Lemma writeRule_fold_other (l : list (string * document))
    (dir0 : gmap string content) (name : string) :
  name ∉ (fun kv => ruleFileName kv.1) <$> l ->
  foldl (writeRule localeCompare) dir0 l !! name = dir0 !! name.
Proof.
  revert dir0. induction l as [|kv l IH]; intros dir0 Hn; cbn [foldl]; [done|].
  rewrite fmap_cons, not_elem_of_cons in Hn. destruct Hn as [Hne Hn].
  rewrite IH by done. unfold writeRule. by rewrite lookup_insert_ne.
Qed.

Lemma writeRule_fold_lookup (l : list (string * document))
    (dir0 : gmap string content) (r : string) (rd : document) :
  NoDup l.*1 -> (r, rd) ∈ l ->
  foldl (writeRule localeCompare) dir0 l !! ruleFileName r
  = Some (ruleFileContent localeCompare rd).
Proof.
  revert dir0. induction l as [|[k v] l IH]; intros dir0 Hnd Hin.
  { by apply elem_of_nil in Hin. }
  rewrite fmap_cons in Hnd. apply NoDup_cons in Hnd as [Hk Hnd]. cbn [fst] in Hk.
  apply elem_of_cons in Hin as [[= <- <-]|Hin]; cbn [foldl].
  - rewrite writeRule_fold_other.
    + unfold writeRule. cbn [fst snd]. by rewrite lookup_insert_eq.
    + intros Hin. apply list_elem_of_fmap in Hin as ([k' v'] & E & Hin).
      cbn [fst] in E. apply ruleFileName_inj in E as <-.
      apply Hk. apply list_elem_of_fmap. by exists (r, v').
  - by apply IH.
Qed.

(** The files of the directory that [_loadSplitBaseline] reads are exactly
    the rule documents (the one named like the manifest excepted). *)
Lemma splitDirectory_ruleFile (existing : gmap string content) (d : document)
    (name : string) (c : content) :
  isRuleFile name = true ->
  splitDirectory localeCompare existing d !! name = Some c <->
  exists r rd, name = ruleFileName r /\ grouping d !! r = Some rd
               /\ c = ruleFileContent localeCompare rd.
Proof.
  intros Hrule. unfold isRuleFile in Hrule.
  apply andb_true_iff in Hrule as [Hjson Hloader].
  apply negb_true_iff, bool_decide_eq_false in Hloader.
  unfold splitDirectory. rewrite lookup_insert_ne by done.
  set (rules := map_to_list (grouping d)).
  assert (Hnd : NoDup rules.*1) by apply NoDup_fst_map_to_list.
  destruct (decide (name ∈ (fun kv => ruleFileName kv.1) <$> rules)) as [Hin|Hin].
  - apply list_elem_of_fmap in Hin as ([r rd] & -> & Hin). cbn [fst].
    rewrite (writeRule_fold_lookup _ _ r rd) by done.
    apply elem_of_map_to_list in Hin. split.
    + intros [= <-]. eauto.
    + intros (r' & rd' & E & Hr' & ->). apply ruleFileName_inj in E as <-.
      congruence.
  - rewrite writeRule_fold_other by done. split.
    + intros Hc. apply map_lookup_filter_Some in Hc as [_ Hc]. cbn [fst] in Hc.
      congruence.
    + intros (r & rd & -> & Hr & _). exfalso. apply Hin.
      apply list_elem_of_fmap. exists (r, rd). split; [done|].
      by apply elem_of_map_to_list.
Qed.

Lemma mergeInto_fold_lookup (merged validated : document) (f : string) :
  map_fold mergeInto merged validated !! f
  = appendOpt (merged !! f) (validated !! f).
Proof.
  apply (map_fold_weak_ind
           (fun r v => r !! f = appendOpt (merged !! f) (v !! f))).
  - by rewrite lookup_empty.
  - intros file errors m r Hfresh IH. unfold mergeInto.
    destruct (decide (file = f)) as [->|Hne].
    + rewrite !lookup_insert_eq, IH, Hfresh. reflexivity.
    + by rewrite !lookup_insert_ne.
Qed.

(** Over source files with plain names the merge does not throw. *)
Lemma push_all_plain (merged validated : document) :
  (forall f, is_Some (validated !! f) -> inheritedKey f = false) ->
  map_fold push_all (merged, false) validated
  = (map_fold mergeInto merged validated, false).
Proof.
  intros Hp. rewrite !map_fold_foldr.
  assert (H : forall kv, kv ∈ map_to_list validated -> inheritedKey kv.1 = false).
  { intros [k v] Hin. apply Hp. apply elem_of_map_to_list in Hin. eauto. }
  induction (map_to_list validated) as [|[file errors] l IH]; [done|].
  cbn [foldr uncurry]. rewrite IH.
  2:{ intros kv Hin. apply H. by apply elem_of_cons; right. }
  assert (Hf : inheritedKey file = false).
  { apply (H (file, errors)). by apply elem_of_cons; left. }
  unfold push_all. by rewrite Hf.
Qed.

Lemma loadSplit_plain (dir : gmap string content) (names : list string) :
  (forall n f, n ∈ names -> is_Some (docOfFile dir n !! f) ->
     inheritedKey f = false) ->
  forall acc : document,
    foldl (fun (acc : document * bool) file =>
             if acc.2 then acc
             else
               match dir !! file ≫= JSON_parse with
               | None => acc
               | Some content => map_fold push_all acc (_validateBaselineData content)
               end)
          (acc, false) names
    = (foldl (fun (merged : document) file =>
                match dir !! file ≫= JSON_parse with
                | None => merged
                | Some content =>
                    map_fold mergeInto merged (_validateBaselineData content)
                end)
             acc names,
       false).
Proof.
  induction names as [|n names IH]; intros Hp acc; [done|].
  cbn [foldl snd].
  assert (Hn : forall f, is_Some (docOfFile dir n !! f) -> inheritedKey f = false).
  { intros f. apply Hp. by apply elem_of_cons; left. }
  unfold docOfFile in Hn.
  destruct (dir !! n ≫= JSON_parse) as [content|].
  - rewrite push_all_plain by done. apply IH.
    intros n' f Hin. apply Hp. by apply elem_of_cons; right.
  - apply IH. intros n' f Hin. apply Hp. by apply elem_of_cons; right.
Qed.

Lemma loadSplit_lookup (dir : gmap string content) (names : list string)
    (acc : document) (f : string) :
  foldl (fun (merged : document) file =>
           match dir !! file ≫= JSON_parse with
           | None => merged
           | Some content => map_fold mergeInto merged (_validateBaselineData content)
           end)
        acc names !! f
  = foldl appendOpt (acc !! f) ((fun n => docOfFile dir n !! f) <$> names).
Proof.
  revert acc. induction names as [|n names IH]; intros acc;
    cbn [foldl fmap list_fmap]; [done|].
  rewrite IH. f_equal. unfold docOfFile.
  destruct (dir !! n ≫= JSON_parse); [apply mergeInto_fold_lookup|].
  by rewrite lookup_empty.
Qed.

Lemma foldl_appendOpt (l : list (option (list json))) (o : option (list json)) :
  (forall es, Some es ∈ l -> es <> []) ->
  foldl appendOpt o l = extend o (concat (default [] <$> l)).
Proof.
  revert o. induction l as [|e l IH]; intros o Hne; [done|].
  rewrite fmap_cons. cbn [foldl concat].
  rewrite IH by (intros es Hes; apply Hne; by apply elem_of_cons; right).
  generalize (concat (default [] <$> l)). intros c.
  destruct e as [es|]; [|done].
  destruct es as [|x es]; [by destruct (Hne []); [apply elem_of_cons; left|]|].
  destruct c as [|y c]; cbn [extend appendOpt default from_option id app].
  - by rewrite app_nil_r.
  - by rewrite <- app_assoc.
Qed.

Lemma validate_nonempty (data : json) (f : string) :
  _validateBaselineData data !! f <> Some [].
Proof.
  destruct data as [| | | | |members];
    try (cbn [_validateBaselineData]; by rewrite lookup_empty).
  rewrite validate_as_fold.
  assert (G : forall acc : document,
             acc !! f <> Some [] -> foldl validateMember acc members !! f <> Some []).
  { induction members as [|[k v] members IH]; intros acc Hacc; cbn [foldl]; [done|].
    apply IH. unfold validateMember. cbn [fst snd].
    destruct (validEntries v) as [l|] eqn:Hv; [|done].
    destruct (decide (k = f)) as [->|Hne]; [|by rewrite lookup_insert_ne].
    rewrite lookup_insert_eq. intros [= ->].
    unfold validEntries in Hv. destruct v; try done.
    by destruct (List.filter isValidError items). }
  apply G. by rewrite lookup_empty.
Qed.

(** ** Round trip *)

Lemma filter_split_perm {A} (p : A -> bool) (l : list A) :
  l ≡ₚ List.filter p l ++ List.filter (fun x => negb (p x)) l.
Proof.
  induction l as [|x l IH]; cbn [List.filter]; [done|].
  destruct (p x); cbn [negb app].
  - by constructor.
  - rewrite <- Permutation_middle. by constructor.
Qed.

Lemma filter_filter_implied {A} (p q : A -> bool) (l : list A) :
  (forall x, p x = true -> q x = true) ->
  List.filter p (List.filter q l) = List.filter p l.
Proof.
  intros Hpq. induction l as [|x l IH]; cbn [List.filter]; [done|].
  destruct (q x) eqn:Hq; cbn [List.filter].
  - by rewrite IH.
  - rewrite IH. destruct (p x) eqn:Hp; [|done].
    apply Hpq in Hp. congruence.
Qed.

(** Buckets by key, over distinct keys that cover the list, rebuild it. *)
Lemma concat_partition {A} (key : A -> string) (c : string -> list A)
    (names : list string) :
  NoDup names ->
  forall l : list A,
    (forall n, n ∈ names ->
       c n ≡ₚ List.filter (fun e => bool_decide (key e = n)) l) ->
    (forall e, e ∈ l -> key e ∈ names) ->
    concat (c <$> names) ≡ₚ l.
Proof.
  induction 1 as [|n names Hn Hnd IH]; intros l Hc Hcover.
  - destruct l as [|e l]; [done|].
    assert (He : key e ∈ []) by (apply Hcover; by apply elem_of_cons; left).
    by apply elem_of_nil in He.
  - rewrite fmap_cons. cbn [concat].
    etrans; [|symmetry; apply (filter_split_perm (fun e => bool_decide (key e = n)))].
    apply Permutation_app.
    + apply Hc. by apply elem_of_cons; left.
    + apply IH.
      * intros n' Hn'. rewrite filter_filter_implied.
        { apply Hc. by apply elem_of_cons; right. }
        intros e He. apply bool_decide_eq_true in He.
        apply negb_true_iff, bool_decide_eq_false_2. congruence.
      * intros e He. apply list_elem_of_In, filter_In in He as [He Hk].
        apply list_elem_of_In in He.
        apply negb_true_iff, bool_decide_eq_false in Hk.
        apply Hcover in He. apply elem_of_cons in He as [?|?]; done.
Qed.

Lemma save_cases (h : host) (b : Baseline) (d : document) (o : saveOptions) :
  save localeCompare h b d o
  = if bool_decide (d = ∅) && negb (or_false (allowEmpty o)) then Ok (h, false)
    else bind (if splitByRule b then _saveSplitBaseline localeCompare h b d
               else Ok (_saveSingleBaseline localeCompare h b d))
              (fun h' => Ok (h', true)).
Proof. unfold save. by rewrite keys_length_zero. Qed.

Lemma roundtrip_single (h : host) (b : Baseline) (d : document) :
  findings_only d -> no_empty_file d -> d !! "__proto__" = None ->
  _loadSingleBaseline (_saveSingleBaseline localeCompare h b d) (reset b)
  = sortErrors localeCompare <$> d.
Proof.
  intros Hv Hne Hp. unfold _loadSingleBaseline, _saveSingleBaseline, writeFile.
  cbn [files]. change (getBaselinePath (reset b)) with (getBaselinePath b).
  rewrite lookup_insert_eq. cbn [JSON_parse]. rewrite sortBaseline_fmap by done.
  apply validate_json_of_document;
    [by apply findings_only_sorted | by apply no_empty_file_sorted].
Qed.

Lemma docOfFile_nonempty (dir : gmap string content) (n f : string) :
  docOfFile dir n !! f <> Some [].
Proof.
  unfold docOfFile. destruct (dir !! n ≫= JSON_parse).
  - apply validate_nonempty.
  - by rewrite lookup_empty.
Qed.

Lemma loader_not_ruleFile (r : string) :
  r <> "_loader" -> isRuleFile (ruleFileName r) = true.
Proof.
  intros Hr. unfold isRuleFile, ruleFileName.
  rewrite ends_with_append. cbn [andb]. apply negb_true_iff, bool_decide_eq_false_2.
  intros E. apply Hr. by apply (append_cancel_r r "_loader" ".json").
Qed.

Lemma docOfFile_ruleFile (existing : gmap string content) (d : document)
    (r : string) (rd : document) :
  findings_only d -> plain_keys d -> isRuleFile (ruleFileName r) = true ->
  grouping d !! r = Some rd ->
  docOfFile (splitDirectory localeCompare existing d) (ruleFileName r)
  = sortErrors localeCompare <$> rd.
Proof.
  intros Hv Hp Hrule Hr.
  assert (Hc : splitDirectory localeCompare existing d !! ruleFileName r
               = Some (ruleFileContent localeCompare rd)).
  { apply splitDirectory_ruleFile; [done|]. eauto. }
  unfold docOfFile. rewrite Hc. cbn [mbind option_bind ruleFileContent JSON_parse].
  destruct (grouping_findings d r rd Hv Hr) as (Hv' & Hne' & Hkeys).
  rewrite sortBaseline_fmap.
  - apply validate_json_of_document;
      [by apply findings_only_sorted | by apply no_empty_file_sorted].
  - destruct (rd !! "__proto__") as [es|] eqn:E; [|done].
    destruct (Hkeys "__proto__") as (es0 & e & Hd & He & _); [by eauto|].
    destruct (Hp "__proto__" es0 e Hd He) as [Hf _]. done.
Qed.

Lemma default_extend_None (l : list json) : default [] (extend None l) = l.
Proof. by destruct l. Qed.

Lemma ruleFile_bucket (d : document) (r f : string) (rd : document) :
  grouping d !! r = Some rd ->
  default [] ((sortErrors localeCompare <$> rd) !! f)
  ≡ₚ List.filter (fun e => bool_decide (ruleFileName (sanitized e) = ruleFileName r))
       (default [] (d !! f)).
Proof.
  intros Hr.
  assert (E : List.filter (fun e => bool_decide (ruleFileName (sanitized e) = ruleFileName r))
                (default [] (d !! f))
              = ruleEntries r (default [] (d !! f))).
  { unfold ruleEntries. apply filter_ext. intros e. apply bool_decide_ext.
    split; [apply ruleFileName_inj | by intros ->]. }
  rewrite E. pose proof (cell_grouping d r f) as Hcell.
  unfold cell in Hcell. rewrite Hr in Hcell. cbn [mbind option_bind] in Hcell.
  rewrite <- (default_extend_None (ruleEntries r (default [] (d !! f)))), <- Hcell.
  rewrite lookup_fmap.
  destruct (rd !! f); cbn [fmap option_fmap option_map default from_option id];
    [apply sortErrors_perm|done].
Qed.

Lemma roundtrip_split_buckets (existing : gmap string content) (d : document)
    (f : string) :
  findings_only d -> plain_keys d -> avoids_manifest_name d ->
  let dir := splitDirectory localeCompare existing d in
  concat ((fun n => default [] (docOfFile dir n !! f))
            <$> List.filter isRuleFile (readdirSync dir))
  ≡ₚ default [] (d !! f).
Proof.
  intros Hv Hp Hloader. cbv zeta.
  apply (concat_partition (fun e => ruleFileName (sanitized e))).
  - apply NoDup_ListNoDup, List.NoDup_filter, NoDup_ListNoDup, NoDup_fst_map_to_list.
  - intros n Hn. apply list_elem_of_In, filter_In in Hn as [Hn Hrule].
    apply list_elem_of_In, elem_of_keys in Hn as [c Hc].
    apply splitDirectory_ruleFile in Hc as (r & rd & -> & Hr & _); [|done].
    rewrite (docOfFile_ruleFile existing d r rd) by done.
    by apply ruleFile_bucket.
  - intros e He. destruct (d !! f) as [es|] eqn:Hf; [|by apply elem_of_nil in He].
    cbn [default from_option id] in He.
    destruct (grouping_elem d f es e Hf He) as (rd & Hr & _).
    assert (Hrule : isRuleFile (ruleFileName (sanitized e)) = true)
      by (apply loader_not_ruleFile; eauto).
    apply list_elem_of_In, filter_In. split; [|done].
    apply list_elem_of_In, elem_of_keys. exists (ruleFileContent localeCompare rd).
    apply splitDirectory_ruleFile; [done|]. eauto.
Qed.

Lemma roundtrip_split (h : host) (b : Baseline) (d : document) :
  findings_only d -> no_empty_file d -> plain_keys d -> avoids_manifest_name d ->
  doc_equiv
    (_loadSplitBaseline
       (writeDir h (getSplitBaselineDir b)
          (splitDirectory localeCompare
             (default ∅ (dirs h !! getSplitBaselineDir b)) d))
       (reset b))
    d.
Proof.
  intros Hv Hne Hp Hloader f. unfold _loadSplitBaseline, writeDir. cbn [dirs].
  change (getSplitBaselineDir (reset b)) with (getSplitBaselineDir b).
  rewrite lookup_insert_eq.
  set (dir := splitDirectory _ _ d).
  rewrite loadSplit_plain.
  2:{ intros n f' Hn Hf'. apply list_elem_of_In, filter_In in Hn as [Hn Hrule].
      apply list_elem_of_In, elem_of_keys in Hn as [c Hc].
      apply splitDirectory_ruleFile in Hc as (r & rd & -> & Hr & _); [|done].
      fold dir in Hf'.
      unfold dir in Hf'. rewrite (docOfFile_ruleFile _ d r rd) in Hf' by done.
      rewrite lookup_fmap in Hf'. apply fmap_is_Some in Hf'.
      destruct (grouping_findings d r rd Hv Hr) as (_ & _ & Hkeys).
      destruct (Hkeys f' Hf') as (es & e & Hd & He & _).
      by destruct (Hp f' es e Hd He). }
  cbn [fst].
  rewrite loadSplit_lookup, lookup_empty, foldl_appendOpt.
  2:{ intros es Hes. apply list_elem_of_fmap in Hes as (n & Hes & _).
      intros ->. by apply (docOfFile_nonempty dir n f). }
  rewrite <- list_fmap_compose.
  pose proof (roundtrip_split_buckets
                (default ∅ (dirs h !! getSplitBaselineDir b)) d f Hv Hp Hloader)
    as Hperm.
  cbv zeta in Hperm. fold dir in Hperm.
  change ((fun n => default [] (docOfFile dir n !! f))) with
    (default [] ∘ (fun n => docOfFile dir n !! f)) in Hperm.
  revert Hperm. generalize (concat ((default [] ∘ (fun n => docOfFile dir n !! f))
                                      <$> List.filter isRuleFile (readdirSync dir))).
  intros c Hperm. destruct (d !! f) as [es|] eqn:Hf;
    cbn [default from_option id] in Hperm.
  - destruct c as [|x c].
    + apply Permutation_nil in Hperm. subst es. by destruct (Hne f).
    + cbn [extend default from_option id app]. by constructor.
  - symmetry in Hperm. apply Permutation_nil in Hperm as ->. constructor.
Qed.

End SplitDirectory.





(** ** Saving and loading back *)

Lemma doc_equiv_empty (d : document) : doc_equiv d ∅ -> d = ∅.
Proof.
  intros H. apply map_eq. intros f. specialize (H f).
  rewrite lookup_empty in *. by inversion H.
Qed.




(** In single-document mode the loaded arrays are the sorted ones: entries
    of one line and one rule keep the order they were saved in. *)
Example single_mode_order :
  let d : document :=
    {[ "src/f.js" := [finding "semi" 9 1 "C"; finding "semi" 3 7 "B";
                      finding "semi" 3 1 "A"] ]} in
  (load (Sample.onDisk Sample.single d) (reset Sample.single)).2
  = Some {[ "src/f.js" := [finding "semi" 3 7 "B"; finding "semi" 3 1 "A";
                           finding "semi" 9 1 "C"] ]}.
Proof. vm_compute. reflexivity. Qed.

Lemma load_after_empty_save (localeCompare : string -> string -> Z)
    (h : host) (b : Baseline) (o : saveOptions) :
  or_false (allowEmpty o) = true ->
  exists h', save localeCompare h b ∅ o = Ok (h', true)
             /\ (load h' (reset b)).2 = Some ∅.
Proof.
  intros Ho. rewrite save_cases, Ho. rewrite andb_false_r.
  assert (Hv : findings_only ∅) by (intros f es; by rewrite lookup_empty).
  assert (Hne : no_empty_file ∅) by (intros f; by rewrite lookup_empty).
  assert (Hp : plain_keys ∅) by (intros f es e; by rewrite lookup_empty).
  assert (Hl : avoids_manifest_name ∅) by (intros f es e; by rewrite lookup_empty).
  unfold load. cbn [reset loaded splitByRule snd].
  destruct (splitByRule b) eqn:Hmode.
  - rewrite saveSplit_plain by done. cbn [bind]. eexists. split; [reflexivity|].
    cbn [snd]. f_equal. by apply doc_equiv_empty, roundtrip_split.
  - cbn [bind]. eexists. split; [reflexivity|]. cbn [snd]. f_equal.
    rewrite roundtrip_single by done. apply fmap_empty.
Qed.

Lemma save_refuses_iff (localeCompare : string -> string -> Z)
    (h : host) (b : Baseline) (d : document) (o : saveOptions) (h' : host) :
  save localeCompare h b d o = Ok (h', false)
  <-> d = ∅ /\ or_false (allowEmpty o) = false /\ h' = h.
Proof.
  rewrite save_cases. destruct (decide (d = ∅)) as [Hd|Hd].
  - rewrite (bool_decide_eq_true_2 _ Hd).
    destruct (or_false (allowEmpty o)); cbn [andb negb].
    + split; [|by intros (_ & ? & _)].
      destruct (if splitByRule b then _ else _); cbn [bind]; congruence.
    + split; [by intros [= ->] | by intros (_ & _ & ->)].
  - rewrite (bool_decide_eq_false_2 _ Hd). cbn [andb].
    split; [|by intros (? & _)].
    destruct (if splitByRule b then _ else _); cbn [bind]; congruence.
Qed.

(** C3: [save] answers false exactly when the document has no file and
    [allowEmpty] is not set, and then leaves the disk as it was; an empty
    document saved with [allowEmpty] is answered true and loads back as the
    empty document.  But a non-empty document is not always persisted by
    the save that answers true: in split mode the document of a rule named
    [_loader] is written to [_loader.json] and overwritten by the manifest,
    and a rule named like an inherited property ([constructor]) never gets
    a document; in both cases the directory holds the manifest alone and
    the next load yields the empty document. *)
Theorem save_empty_guard (localeCompare : string -> string -> Z) :
  (forall h b d o h',
     save localeCompare h b d o = Ok (h', false)
     <-> d = ∅ /\ or_false (allowEmpty o) = false /\ h' = h)
  /\ (forall h b o,
        or_false (allowEmpty o) = true ->
        exists h', save localeCompare h b ∅ o = Ok (h', true)
                   /\ (load h' (reset b)).2 = Some ∅)
  /\ (let d : document := {[ "src/f.js" := [finding "_loader" 1 1 "m"] ]} in
      exists h',
        save localeCompare Sample.host0 Sample.split d (SaveOptions None)
        = Ok (h', true)
        /\ files h' = ∅
        /\ dirs h'
           = {[ getSplitBaselineDir Sample.split
                := {[ "_loader.json" := Tree (loader_json ["_loader.json"]) ]} ]}
        /\ (load h' (reset Sample.split)).2 = Some ∅)
  /\ (let d : document := {[ "src/f.js" := [finding "constructor" 1 1 "m"] ]} in
      exists h',
        save localeCompare Sample.host0 Sample.split d (SaveOptions None)
        = Ok (h', true)
        /\ files h' = ∅
        /\ dirs h'
           = {[ getSplitBaselineDir Sample.split
                := {[ "_loader.json" := Tree (loader_json []) ]} ]}
        /\ (load h' (reset Sample.split)).2 = Some ∅).
Proof.
  split; [intros h b d o h'; apply save_refuses_iff|].
  split; [intros h b o; apply load_after_empty_save|].
  split; cbv zeta.
  - exists (writeDir Sample.host0 (getSplitBaselineDir Sample.split)
              {[ "_loader.json" := Tree (loader_json ["_loader.json"]) ]}).
    repeat split; vm_compute; reflexivity.
  - exists (writeDir Sample.host0 (getSplitBaselineDir Sample.split)
              {[ "_loader.json" := Tree (loader_json []) ]}).
    repeat split; vm_compute; reflexivity.
Qed.

(** The empty-baseline guard on a disk that already holds a baseline: the
    refused save leaves it there, the forced one replaces it. *)
Example save_empty_twice :
  let h := Sample.onDisk Sample.single Sample.three in
  exists forced,
    save ordinalCompare h Sample.single ∅ (SaveOptions (Some false)) = Ok (h, false)
    /\ (load h Sample.single).2 = Some Sample.three
    /\ save ordinalCompare h Sample.single ∅ (SaveOptions (Some true))
       = Ok (forced, true)
    /\ (load forced Sample.single).2 = Some ∅.
Proof.
  exists (writeFile (Sample.onDisk Sample.single Sample.three)
            (getBaselinePath Sample.single) (Tree (JObj []))).
  cbv zeta. repeat split; vm_compute; reflexivity.
Qed.

(** In split mode a source file named like an inherited property makes the
    grouping throw, and [save] with it. *)
Example inherited_path_throws :
  let d : document := {[ "constructor" := [finding "semi" 1 1 "m"] ]} in
  save ordinalCompare Sample.host0 Sample.split d (SaveOptions None)
  = Throw "TypeError"
  /\ (load (Sample.onDisk Sample.single d) (reset Sample.single)).2 = Some d.
Proof. vm_compute. split; reflexivity. Qed.

(** A split baseline on disk that names a source file like an inherited
    property: the merge stops there. *)
Example inherited_path_stops_merge :
  let h :=
    Host "/work" ∅
      {[ getSplitBaselineDir Sample.split
         := {[ "semi.json"
               := Tree (JObj [("constructor", JArr [finding "semi" 1 1 "m"])]) ]} ]} in
  (load h Sample.split).2 = Some ∅.
Proof. vm_compute. reflexivity. Qed.

(** What [getStats] makes of a rule named like an inherited property. *)
Example inherited_rule_counter :
  let d : document :=
    {[ "src/f.js" := [finding "constructor" 1 1 "m"; finding "semi" 2 1 "m";
                      finding "constructor" 3 1 "m"; finding "__proto__" 4 1 "m"] ]} in
  scanStats d
  = Stats 4 1 {[ "constructor" := Text "function Object() { [native code] }11";
                 "semi" := Count 1 ]}.
Proof. vm_compute. reflexivity. Qed.

(** ** Leftover entries *)

Lemma representative_answers (d : document) (file hash : string) (count : Z) :
  exists r, representative (Some d) file hash count = Ok r.
Proof.
  unfold representative. destruct (0 <? count); [|eauto].
  destruct (List.find _ _); eauto.
Qed.

Lemma unmatched_file_answers (d : document) (file : string)
    (entries : list (string * Z)) :
  forall unmatched,
    exists unmatched',
      foldl (fun acc '(hash, count) =>
               bind acc (fun unmatched =>
               bind (representative (Some d) file hash count) (fun r =>
               Ok (unmatched ++ r))))
            (Ok unmatched) entries
      = Ok unmatched'.
Proof.
  induction entries as [|[hash count] entries IH]; intros unmatched; simpl; [eauto|].
  destruct (representative_answers d file hash count) as [r ->]. simpl. apply IH.
Qed.

(** Once the engine is loaded, [getUnmatched] answers. *)
Lemma getUnmatched_loaded_answers (b : Baseline) (d : document) (idx : matchIndex) :
  data b = Some d -> index b = Some idx ->
  exists unmatched, getUnmatched b = Ok unmatched.
Proof.
  intros Hd Hi. unfold getUnmatched. rewrite Hi, Hd.
  generalize (@nil unmatchedEntry).
  induction (map_to_list idx) as [|[file hs] files IH]; intros unmatched; simpl; [eauto|].
  destruct (unmatched_file_answers d file (map_to_list hs) unmatched) as [u ->].
  apply IH.
Qed.

(** Of two recorded findings, the one never looked up is reported. *)
Example unmatched_detection :
  let d : document :=
    {[ "src/file.ts" := [finding "no-unused-vars" 10 5 "Variable is not used";
                         finding "no-console" 20 1 "Unexpected console statement"] ]} in
  let h := Sample.onDisk Sample.single d in
  let b := Sample.loadedFrom Sample.single d in
  bind (isInBaseline h b "/repo/src/file.ts" (Sample.str "no-unused-vars")
          (Sample.num 10) (Sample.str "Variable is not used"))
       (fun br => getUnmatched br.1)
  = Ok [Unmatched "src/file.ts"
          (finding "no-console" 20 1 "Unexpected console statement") 1].
Proof. vm_compute. reflexivity. Qed.
